(** * The artifact build pipeline of clice

    A shallow embedding of the four build entry points [buildAST],
    [buildPCH], [buildPCM] and [codeCompleteAt], of the helpers they share
    ([adjustInvocation], [createInstance], [applyPreamble], [ExecuteAction]),
    and proofs of the properties the specification states about them.

    The clang frontend is not part of the repository.  It enters the
    development as a record of functions ([Frontend]).  The calls that
    compute the preamble bounds and that run an action are written to a log,
    in program order, next to what is printed on [llvm::errs()] and to
    [std::terminate]; session construction only builds the session and
    leaves no entry.

    The module [InlayHints] embeds the functions of the inlay hint feature
    ([Feature/InlayHint.cpp] and its header) that work on texts, options and
    finished hints, the consumer of the artifacts the pipeline returns. *)

From stdpp Require Import base option list gmap strings pretty.

Local Open Scope string_scope.

(** ** The option structures of clang that the pipeline reads or writes *)

(** [clang::frontend::ActionKind]. *)
Inductive ActionKind :=
| ASTDeclList | ASTDump | ASTPrint | ASTView | DumpCompilerOptions
| DumpRawTokens | DumpTokens | EmitAssembly | EmitBC | EmitHTML | EmitCIR
| EmitLLVM | EmitLLVMOnly | EmitCodeGenOnly | EmitObj | ExtractAPI | FixIt
| GenerateModule | GenerateModuleInterface | GenerateReducedModuleInterface
| GenerateHeaderUnit | GeneratePCH | GenerateInterfaceStubs | InitOnly
| ModuleFileInfo | VerifyPCH | ParseSyntaxOnly | PluginAction
| PrintPreamble | PrintPreprocessedInput | RewriteMacros | RewriteObjC
| RewriteTest | RunAnalysis | TemplightDump | RunPreprocessorOnly
| PrintDependencyDirectivesSourceMinimizerOutput.

(** [clang::DisableValidationForModuleKind]. *)
Inductive DisableValidationForModuleKind :=
| DisableValidation_None | DisableValidation_PCH
| DisableValidation_Module | DisableValidation_All.

(** [clang::PreambleBounds]: [Size] is an [unsigned]. *)
Record PreambleBounds := mkPreambleBounds {
  Size : N;
  PreambleEndsAtStartOfLine : bool }.

(** [clang::ParsedSourceLocation], the type of [CodeCompletionAt]. *)
Record ParsedSourceLocation := mkParsedSourceLocation {
  FileName : string;
  Line : N;
  Column : N }.

Record FrontendOptions := mkFrontendOptions {
  DisableFree : bool;
  OutputFile : string;
  ProgramAction : ActionKind;
  CodeCompletionAt : ParsedSourceLocation;
  Inputs : list string }.

Record LangOptions := mkLangOptions {
  ParseAllComments : bool;           (* CommentOpts.ParseAllComments *)
  RetainCommentsFromSystemHeaders : bool;
  CompilingPCH : bool }.

Record PreprocessorOptions := mkPreprocessorOptions {
  UsePredefines : bool;
  ImplicitPCHInclude : string;
  PrecompiledPreambleBytes : N * bool;
  DisablePCHOrModuleValidation : DisableValidationForModuleKind;
  GeneratePreamble : bool;
  RemappedFileBuffers : list (string * string) }.

(** [PrebuiltModuleFiles] is a [std::map<std::string, std::string>]. *)
Record HeaderSearchOptions := mkHeaderSearchOptions {
  PrebuiltModuleFiles : gmap string string }.

Record CompilerInvocation := mkCompilerInvocation {
  FrontendOpts : FrontendOptions;
  LangOpts : LangOptions;
  PreprocessorOpts : PreprocessorOptions;
  HeaderSearchOpts : HeaderSearchOptions }.

(** A default-constructed [clang::LangOptions], the [{}] of [buildPCH]. *)
Definition defaultLangOptions : LangOptions :=
  mkLangOptions false false false.

Definition defaultInvocation : CompilerInvocation :=
  mkCompilerInvocation
    (mkFrontendOptions false "" ParseSyntaxOnly (mkParsedSourceLocation "" 0 0) [])
    defaultLangOptions
    (mkPreprocessorOptions true "" (0%N, false) DisableValidation_None false [])
    (mkHeaderSearchOptions ∅).

(** ** The session *)

(** The diagnostics engine installed by [createDiagnostics]: which client
    prints, and whether the engine owns it. *)
Inductive DiagnosticConsumer :=
| TextDiagnosticPrinter_outs.

Record DiagnosticsEngine := mkDiagnosticsEngine {
  Client : DiagnosticConsumer;
  ShouldOwnClient : bool }.

(** Objects of the frontend that the pipeline only passes around are known
    by their identity. *)
Definition Preprocessor := nat.
Definition CodeCompleteConsumer := nat.
Definition Token := string.

(** [clang::CompilerInstance]: the invocation and what the frontend hangs on
    the instance while it runs. *)
Record CompilerInstance := mkCompilerInstance {
  Invocation : CompilerInvocation;
  Diagnostics : option DiagnosticsEngine;
  CompletionConsumer : option CodeCompleteConsumer;
  Target : option string;
  PP : option Preprocessor }.

(** [std::make_unique<clang::CompilerInstance>()]. *)
Definition newCompilerInstance : CompilerInstance :=
  mkCompilerInstance defaultInvocation None None None None.

Definition getFrontendOpts (i : CompilerInstance) := FrontendOpts (Invocation i).
Definition getLangOpts (i : CompilerInstance) := LangOpts (Invocation i).
Definition getPreprocessorOpts (i : CompilerInstance) := PreprocessorOpts (Invocation i).
Definition getHeaderSearchOpts (i : CompilerInstance) := HeaderSearchOpts (Invocation i).

(** Assignments through the [get...Opts()] references. *)
Definition setInvocation (inv : CompilerInvocation) (i : CompilerInstance) :=
  mkCompilerInstance inv (Diagnostics i) (CompletionConsumer i) (Target i) (PP i).

Definition withFrontendOpts (f : FrontendOptions -> FrontendOptions)
    (inv : CompilerInvocation) : CompilerInvocation :=
  mkCompilerInvocation (f (FrontendOpts inv)) (LangOpts inv)
    (PreprocessorOpts inv) (HeaderSearchOpts inv).

Definition withLangOpts (f : LangOptions -> LangOptions)
    (inv : CompilerInvocation) : CompilerInvocation :=
  mkCompilerInvocation (FrontendOpts inv) (f (LangOpts inv))
    (PreprocessorOpts inv) (HeaderSearchOpts inv).

Definition withPreprocessorOpts (f : PreprocessorOptions -> PreprocessorOptions)
    (inv : CompilerInvocation) : CompilerInvocation :=
  mkCompilerInvocation (FrontendOpts inv) (LangOpts inv)
    (f (PreprocessorOpts inv)) (HeaderSearchOpts inv).

Definition withHeaderSearchOpts (f : HeaderSearchOptions -> HeaderSearchOptions)
    (inv : CompilerInvocation) : CompilerInvocation :=
  mkCompilerInvocation (FrontendOpts inv) (LangOpts inv)
    (PreprocessorOpts inv) (f (HeaderSearchOpts inv)).

Definition onInvocation (f : CompilerInvocation -> CompilerInvocation)
    (i : CompilerInstance) : CompilerInstance :=
  setInvocation (f (Invocation i)) i.

Definition set_DisableFree (b : bool) (o : FrontendOptions) :=
  mkFrontendOptions b (OutputFile o) (ProgramAction o) (CodeCompletionAt o) (Inputs o).
Definition set_OutputFile (s : string) (o : FrontendOptions) :=
  mkFrontendOptions (DisableFree o) s (ProgramAction o) (CodeCompletionAt o) (Inputs o).
Definition set_ProgramAction (k : ActionKind) (o : FrontendOptions) :=
  mkFrontendOptions (DisableFree o) (OutputFile o) k (CodeCompletionAt o) (Inputs o).
Definition set_CodeCompletionAt (l : ParsedSourceLocation) (o : FrontendOptions) :=
  mkFrontendOptions (DisableFree o) (OutputFile o) (ProgramAction o) l (Inputs o).

Definition set_ParseAllComments (b : bool) (o : LangOptions) :=
  mkLangOptions b (RetainCommentsFromSystemHeaders o) (CompilingPCH o).
Definition set_RetainCommentsFromSystemHeaders (b : bool) (o : LangOptions) :=
  mkLangOptions (ParseAllComments o) b (CompilingPCH o).
Definition set_CompilingPCH (b : bool) (o : LangOptions) :=
  mkLangOptions (ParseAllComments o) (RetainCommentsFromSystemHeaders o) b.

Definition set_UsePredefines (b : bool) (o : PreprocessorOptions) :=
  mkPreprocessorOptions b (ImplicitPCHInclude o) (PrecompiledPreambleBytes o)
    (DisablePCHOrModuleValidation o) (GeneratePreamble o) (RemappedFileBuffers o).
Definition set_ImplicitPCHInclude (s : string) (o : PreprocessorOptions) :=
  mkPreprocessorOptions (UsePredefines o) s (PrecompiledPreambleBytes o)
    (DisablePCHOrModuleValidation o) (GeneratePreamble o) (RemappedFileBuffers o).
Definition set_PrecompiledPreambleBytes (p : N * bool) (o : PreprocessorOptions) :=
  mkPreprocessorOptions (UsePredefines o) (ImplicitPCHInclude o) p
    (DisablePCHOrModuleValidation o) (GeneratePreamble o) (RemappedFileBuffers o).
Definition set_DisablePCHOrModuleValidation (k : DisableValidationForModuleKind)
    (o : PreprocessorOptions) :=
  mkPreprocessorOptions (UsePredefines o) (ImplicitPCHInclude o)
    (PrecompiledPreambleBytes o) k (GeneratePreamble o) (RemappedFileBuffers o).
Definition set_GeneratePreamble (b : bool) (o : PreprocessorOptions) :=
  mkPreprocessorOptions (UsePredefines o) (ImplicitPCHInclude o)
    (PrecompiledPreambleBytes o) (DisablePCHOrModuleValidation o) b
    (RemappedFileBuffers o).

(** [PreprocessorOptions::addRemappedFile(From, To)]: an [emplace_back] on
    the vector of remapped buffers. *)
Definition addRemappedFile (from buffer : string) (o : PreprocessorOptions) :=
  mkPreprocessorOptions (UsePredefines o) (ImplicitPCHInclude o)
    (PrecompiledPreambleBytes o) (DisablePCHOrModuleValidation o)
    (GeneratePreamble o) (RemappedFileBuffers o ++ [(from, buffer)]).

(** [std::map::try_emplace]: inserts only when the key is not bound yet. *)
Definition try_emplace (name path : string) (m : gmap string string)
    : gmap string string :=
  match m !! name with
  | Some _ => m
  | None => <[name := path]> m
  end.

Definition set_PrebuiltModuleFiles (m : gmap string string)
    (o : HeaderSearchOptions) : HeaderSearchOptions :=
  mkHeaderSearchOptions m.

Definition setCodeCompletionConsumer (c : CodeCompleteConsumer) (i : CompilerInstance) :=
  mkCompilerInstance (Invocation i) (Diagnostics i) (Some c) (Target i) (PP i).

Definition createDiagnostics (client : DiagnosticConsumer) (own : bool)
    (i : CompilerInstance) :=
  mkCompilerInstance (Invocation i) (Some (mkDiagnosticsEngine client own))
    (CompletionConsumer i) (Target i) (PP i).

(** [llvm::StringRef::substr(Start, N)]: both ends are clamped to the
    string. *)
Definition substr (s : string) (start n : nat) : string :=
  let start := Nat.min start (String.length s) in
  String.substring start (Nat.min n (String.length s - start)) s.

(** ** Parameters, artifacts and results *)

(** Modelled from the spec: the struct [CompliationParams] is declared in
    [Compiler/Compiler.h], which is not among the sources.  Its fields are the
    ones the build functions read: source text and path, the designated main
    path, the output path, the command line, the prior preamble with its
    bounds, and the module name to interface path pairs in the order the loop
    of [applyPreamble] visits them. *)
Record CompliationParams := mkCompliationParams {
  content : string;
  path : string;
  outpath : string;
  mainpath : string;
  args : list string;
  pch : string;
  bounds : PreambleBounds;
  pcms : list (string * string) }.

(** The action objects [ExecuteAction] can create. *)
Inductive FrontendAction :=
| SyntaxOnlyAction
| GeneratePCHAction
| GenerateReducedModuleInterfaceAction.

(** [clang::syntax::TokenCollector] listens to one preprocessor;
    [clang::syntax::TokenBuffer] is what it hands over, and
    [indexExpandedTokens] builds the reverse index on it. *)
Record TokenCollector := mkTokenCollector {
  Watched : Preprocessor;
  Collected : list Token }.

Record TokenBuffer := mkTokenBuffer {
  ExpandedTokens : list Token;
  ExpandedTokIndexed : bool }.

Definition consume (c : TokenCollector) : TokenBuffer :=
  mkTokenBuffer (Collected c) false.

Definition indexExpandedTokens (b : TokenBuffer) : TokenBuffer :=
  mkTokenBuffer (ExpandedTokens b) true.

(** The tokens a preprocessor lexes reach the collector that listens to that
    very preprocessor, and no other. *)
Definition onTokensLexed (running : option Preprocessor) (lexed : list Token)
    (c : TokenCollector) : TokenCollector :=
  if bool_decide (running = Some (Watched c))
  then mkTokenCollector (Watched c) (Collected c ++ lexed)
  else c.

(** Modelled from the spec: the classes [ASTInfo], [PCHInfo] and [PCMInfo]
    are declared in [Compiler/Compiler.h], which is not among the sources.
    An [ASTInfo] owns the finished action, the session and the optional token
    index ([None] is the [nullptr] of the source); a [PCHInfo] wraps an
    [ASTInfo] with the output path, the source text, the originating path and
    the bounds it is constructed from; a [PCMInfo] wraps one with its output
    path. *)
Record ASTInfo := mkASTInfo {
  action : FrontendAction;
  instance : CompilerInstance;
  tokBuf : option TokenBuffer }.

Record PCHInfo := mkPCHInfo {
  pch_info : ASTInfo;
  pch_path : string;
  pch_content : string;
  pch_mainpath : string;
  pch_bounds : PreambleBounds }.

Record PCMInfo := mkPCMInfo {
  pcm_info : ASTInfo;
  pcm_path : string }.

(** Modelled from the spec: [clice::error] comes from a header that is not
    among the sources.  A failure carries a human-readable message and, where
    there is one, the text of the underlying cause that the message's [{}]
    stands for. *)
Record Error := mkError {
  message : string;
  cause : option string }.

Definition error (fmt : string) : Error := mkError fmt None.
Definition error_with (fmt : string) (arg : string) : Error := mkError fmt (Some arg).

(** [llvm::Expected<T>]. *)
Inductive Expected (T : Type) :=
| Success (t : T)
| Failure (e : Error).
Arguments Success {T} t.
Arguments Failure {T} e.

(** ** The frontend and the log of what a build does with it *)

(** The functions of clang that the pipeline calls.  Those that work on the
    session return it as they leave it; [fe_Execute] also returns the tokens
    lexed by the session's preprocessor during the run.  The source uses the
    result of [clang::createInvocation] unchecked, so [fe_createInvocation]
    always yields an invocation. *)
Record Frontend := mkFrontend {
  fe_createInvocation : list string -> CompilerInvocation;
  fe_createTarget : CompilerInstance -> bool * CompilerInstance;
  fe_BeginSourceFile :
    FrontendAction -> CompilerInstance -> string -> bool * CompilerInstance;
  fe_Execute :
    FrontendAction -> CompilerInstance
    -> option string * CompilerInstance * list Token;
  fe_ComputePreamble : string -> LangOptions -> N -> PreambleBounds }.

Inductive Event :=
| CallComputePreamble (buffer : string) (opts : LangOptions) (maxLines : N)
    (result : PreambleBounds)
| CallCreateTarget (inst : CompilerInstance) (ok : bool)
| CallBeginSourceFile (act : FrontendAction) (inst : CompilerInstance)
    (input : string) (ok : bool)
| CallTokenCollector (pp : Preprocessor)
| CallExecute (act : FrontendAction) (inst : CompilerInstance)
    (err : option string)
| WriteErrs (text : string)
| CallTerminate.

(** How a function of the pipeline ends: it returns, [std::terminate] ends
    the process, or it does what the language leaves undefined (an index
    past the end of [Inputs], a session without preprocessor). *)
Inductive Outcome (A : Type) :=
| Returned (a : A)
| Terminated
| Undefined.
Arguments Returned {A} a.
Arguments Terminated {A}.
Arguments Undefined {A}.

(** A computation: how it ends and the log it leaves. *)
Definition M (A : Type) : Type := Outcome A * list Event.

Definition outcome {A} (m : M A) : Outcome A := m.1.
Definition log {A} (m : M A) : list Event := m.2.

#[global] Instance M_ret : MRet M := λ A a, (Returned a, []).

#[global] Instance M_bind : MBind M := λ A B f m,
  match m.1 with
  | Returned a => ((f a).1, (m.2 ++ (f a).2)%list)
  | Terminated => (Terminated, m.2)
  | Undefined => (Undefined, m.2)
  end.

Definition emit (e : Event) : M unit := (Returned tt, [e]).
Definition terminate {A} : M A := (Terminated, [CallTerminate]).
Definition undefined {A} : M A := (Undefined, []).
Definition errs (text : string) : M unit := emit (WriteErrs text).

(** The line feed that ends the message of [ExecuteAction]. *)
Definition newline : string := String (Ascii.ascii_of_nat 10) EmptyString.

(** ** The pipeline *)

Section Pipeline.

Context (fe : Frontend).

(** *** Calls into the frontend, each one logged *)

Definition ComputePreamble (buffer : string) (opts : LangOptions) (maxLines : N)
    : M PreambleBounds :=
  let result := fe_ComputePreamble fe buffer opts maxLines in
  emit (CallComputePreamble buffer opts maxLines result);; mret result.

Definition createTarget (inst : CompilerInstance) : M (bool * CompilerInstance) :=
  let r := fe_createTarget fe inst in
  emit (CallCreateTarget inst r.1);; mret r.

Definition BeginSourceFile (act : FrontendAction) (inst : CompilerInstance)
    (input : string) : M (bool * CompilerInstance) :=
  let r := fe_BeginSourceFile fe act inst input in
  emit (CallBeginSourceFile act inst input r.1);; mret r.

Definition Execute (act : FrontendAction) (inst : CompilerInstance)
    : M (option string * CompilerInstance * list Token) :=
  let r := fe_Execute fe act inst in
  emit (CallExecute act inst r.1.1);; mret r.

(** [instance->getPreprocessor()]: a reference to the preprocessor the
    session holds at the time of the call. *)
Definition getPreprocessor (inst : CompilerInstance) : M Preprocessor :=
  match PP inst with
  | Some pp => mret pp
  | None => undefined
  end.

(** [clang::syntax::TokenCollector collector{PP}]. *)
Definition newTokenCollector (pp : Preprocessor) : M TokenCollector :=
  emit (CallTokenCollector pp);; mret (mkTokenCollector pp []).

(** [Inputs[0]]. *)
Definition firstInput (inputs : list string) : M string :=
  match inputs !! 0%nat with
  | Some input => mret input
  | None => undefined
  end.

(** *** Session construction *)

Definition adjustInvocation (invocation : CompilerInvocation) : CompilerInvocation :=
  let invocation := withFrontendOpts (set_DisableFree false) invocation in
  let invocation := withLangOpts (set_ParseAllComments true) invocation in
  let invocation :=
    withLangOpts (set_RetainCommentsFromSystemHeaders true) invocation in
  invocation.

Definition createInstance (args : list string) : CompilerInstance :=
  let instance := newCompilerInstance in
  let instance := setInvocation (fe_createInvocation fe args) instance in
  let instance := createDiagnostics TextDiagnosticPrinter_outs true instance in
  let instance := onInvocation adjustInvocation instance in
  instance.

(** *** Reuse of a preamble and of module interfaces *)

Definition applyPreamble (instance : CompilerInstance) (params : CompliationParams)
    : CompilerInstance :=
  let instance :=
    if negb (Size (bounds params) =? 0)%N then
      let instance :=
        onInvocation (withPreprocessorOpts (set_UsePredefines false)) instance in
      let instance :=
        onInvocation (withPreprocessorOpts (set_ImplicitPCHInclude (pch params)))
          instance in
      let instance :=
        onInvocation
          (withPreprocessorOpts
             (set_PrecompiledPreambleBytes
                (Size (bounds params), PreambleEndsAtStartOfLine (bounds params))))
          instance in
      onInvocation
        (withPreprocessorOpts
           (set_DisablePCHOrModuleValidation DisableValidation_PCH))
        instance
    else instance in
  foldl
    (λ instance '(name, path),
       onInvocation
         (withHeaderSearchOpts
            (λ HSOpts,
               set_PrebuiltModuleFiles
                 (try_emplace name path (PrebuiltModuleFiles HSOpts)) HSOpts))
         instance)
    instance (pcms params).

(** *** Running an action *)

(** The default argument of [ExecuteAction]. *)
Definition collectPP_default : bool := true.

Definition ExecuteAction (instance : CompilerInstance) (kind : ActionKind)
    (collectPP : bool) : M (Expected ASTInfo) :=
  action ←
    match kind with
    | ParseSyntaxOnly => mret SyntaxOnlyAction
    | GeneratePCH => mret GeneratePCHAction
    | GenerateReducedModuleInterface => mret GenerateReducedModuleInterfaceAction
    | _ => errs ("Unsupported action kind" +:+ newline);; terminate
    end;
  '(ok, instance) ← createTarget instance;
  if negb ok then mret (Failure (error "Failed to create target")) else
  input ← firstInput (Inputs (getFrontendOpts instance));
  '(ok, instance) ← BeginSourceFile action instance input;
  if negb ok then mret (Failure (error "Failed to begin source file")) else
  if collectPP then
    pp ← getPreprocessor instance;
    collector ← newTokenCollector pp;
    '(err, instance', lexed) ← Execute action instance;
    let collector := onTokensLexed (PP instance) lexed collector in
    match err with
    | Some e => mret (Failure (error_with "Failed to execute action, because {} " e))
    | None =>
        let tokBuf := consume collector in
        let tokBuf := indexExpandedTokens tokBuf in
        mret (Success (mkASTInfo action instance' (Some tokBuf)))
    end
  else
    '(err, instance', _) ← Execute action instance;
    match err with
    | Some e => mret (Failure (error_with "Failed to execute action, because {} " e))
    | None => mret (Success (mkASTInfo action instance' None))
    end.

(** *** The four entry points *)

Definition buildAST (params : CompliationParams) : M (Expected ASTInfo) :=
  let instance := createInstance (args params) in
  let instance :=
    onInvocation
      (withPreprocessorOpts (addRemappedFile (path params) (content params)))
      instance in
  let instance := applyPreamble instance params in
  ExecuteAction instance ParseSyntaxOnly collectPP_default.

Definition buildPCH (params : CompliationParams) : M (Expected PCHInfo) :=
  let instance := createInstance (args params) in
  bnds ←
    (if bool_decide (mainpath params = path params)
     then ComputePreamble (content params) defaultLangOptions 0
     else terminate);
  let instance :=
    onInvocation (withFrontendOpts (set_OutputFile (outpath params))) instance in
  let instance :=
    onInvocation (withFrontendOpts (set_ProgramAction GeneratePCH)) instance in
  let instance :=
    onInvocation (withPreprocessorOpts (set_PrecompiledPreambleBytes (0%N, false)))
      instance in
  let instance :=
    onInvocation (withPreprocessorOpts (set_GeneratePreamble true)) instance in
  let instance := onInvocation (withLangOpts (set_CompilingPCH true)) instance in
  let buffer := substr (content params) 0 (N.to_nat (Size bnds)) in
  let instance :=
    onInvocation (withPreprocessorOpts (addRemappedFile (path params) buffer))
      instance in
  info ← ExecuteAction instance GeneratePCH collectPP_default;
  match info with
  | Success info =>
      mret (Success (mkPCHInfo info (outpath params) (content params)
                       (mainpath params) bnds))
  | Failure e => mret (Failure e)
  end.

Definition buildPCM (params : CompliationParams) : M (Expected PCMInfo) :=
  let instance := createInstance (args params) in
  let instance :=
    onInvocation (withFrontendOpts (set_OutputFile (outpath params))) instance in
  let instance :=
    onInvocation
      (withFrontendOpts (set_ProgramAction GenerateReducedModuleInterface))
      instance in
  let instance :=
    onInvocation
      (withPreprocessorOpts (addRemappedFile (path params) (content params)))
      instance in
  let instance := applyPreamble instance params in
  info ← ExecuteAction instance GenerateReducedModuleInterface collectPP_default;
  match info with
  | Success info => mret (Success (mkPCMInfo info (outpath params)))
  | Failure e => mret (Failure e)
  end.

Definition codeCompleteAt (params : CompliationParams) (line column : N)
    (file : string) (consumer : CodeCompleteConsumer) : M (Expected ASTInfo) :=
  let instance := createInstance (args params) in
  let instance :=
    onInvocation
      (withFrontendOpts
         (λ o, set_CodeCompletionAt
                 (mkParsedSourceLocation
                    (FileName (CodeCompletionAt o)) line (Column (CodeCompletionAt o)))
                 o))
      instance in
  let instance :=
    onInvocation
      (withFrontendOpts
         (λ o, set_CodeCompletionAt
                 (mkParsedSourceLocation
                    (FileName (CodeCompletionAt o)) (Line (CodeCompletionAt o)) column)
                 o))
      instance in
  let instance :=
    onInvocation
      (withFrontendOpts
         (λ o, set_CodeCompletionAt
                 (mkParsedSourceLocation
                    file (Line (CodeCompletionAt o)) (Column (CodeCompletionAt o)))
                 o))
      instance in
  let instance := setCodeCompletionConsumer consumer instance in
  let instance :=
    onInvocation
      (withPreprocessorOpts (addRemappedFile (path params) (content params)))
      instance in
  let instance := applyPreamble instance params in
  ExecuteAction instance ParseSyntaxOnly false.

End Pipeline.

(** ** A frontend small enough to evaluate

    It stands in for clang when the pipeline is run on a concrete input.
    Its three switches decide whether the target can be created, whether the
    action can begin, and with which error, if any, the action ends.  The
    command line is taken as the list of input files; beginning a source file
    installs a fresh preprocessor; executing lexes one token per remapped
    buffer; the preamble is the run of leading lines that start with [#]. *)
Module Sample.

Fixpoint scanPreamble (inDirective : bool) (s : string) : nat :=
  match s with
  | EmptyString => 0
  | String c s' =>
      if inDirective
      then S (scanPreamble (negb (Ascii.eqb c (Ascii.ascii_of_nat 10))) s')
      else if Ascii.eqb c (Ascii.ascii_of_nat 35) then S (scanPreamble true s') else 0
  end.

Definition computePreamble (buffer : string) (_ : LangOptions) (_ : N)
    : PreambleBounds :=
  let n := scanPreamble false buffer in
  mkPreambleBounds (N.of_nat n) (negb (n =? 0)%nat).

Definition createInvocation (args : list string) : CompilerInvocation :=
  withFrontendOpts
    (λ o, mkFrontendOptions (DisableFree o) (OutputFile o) (ProgramAction o)
            (CodeCompletionAt o) args)
    defaultInvocation.

Definition freshPreprocessor (i : CompilerInstance) : CompilerInstance :=
  mkCompilerInstance (Invocation i) (Diagnostics i) (CompletionConsumer i)
    (Target i) (Some (match PP i with Some n => S n | None => 1%nat end)).

Definition frontend (targetOk beginOk : bool) (execErr : option string) : Frontend :=
  mkFrontend
    createInvocation
    (λ i, (targetOk,
           mkCompilerInstance (Invocation i) (Diagnostics i) (CompletionConsumer i)
             (if targetOk then Some "x86_64-unknown-linux-gnu" else None) (PP i)))
    (λ _ i _, (beginOk, if beginOk then freshPreprocessor i else i))
    (λ _ i, (execErr, i, (RemappedFileBuffers (getPreprocessorOpts i)).*2))
    computePreamble.

(** A unit whose preamble is its first line. *)
Definition unit1 : CompliationParams :=
  mkCompliationParams
    ("#include <a>" +:+ newline +:+ "int x;")
    "main.cpp" "main.pch" "main.cpp" ["main.cpp"] "" (mkPreambleBounds 0 false) [].

(** The same unit, seen as a header of another main file. *)
Definition header1 : CompliationParams :=
  mkCompliationParams
    ("#include <a>" +:+ newline +:+ "int x;")
    "a.h" "a.pch" "main.cpp" ["a.h"] "" (mkPreambleBounds 0 false) [].

End Sample.

(** * The vocabulary of the properties *)

(** One step of the loop over [pcms]. *)
Definition registerModule (instance : CompilerInstance) (entry : string * string)
    : CompilerInstance :=
  let '(name, path) := entry in
  onInvocation
    (withHeaderSearchOpts
       (λ HSOpts,
          set_PrebuiltModuleFiles
            (try_emplace name path (PrebuiltModuleFiles HSOpts)) HSOpts))
    instance.

(** The action object the [if]-chain of [ExecuteAction] creates, if any. *)
Definition actionFor (kind : ActionKind) : option FrontendAction :=
  match kind with
  | ParseSyntaxOnly => Some SyntaxOnlyAction
  | GeneratePCH => Some GeneratePCHAction
  | GenerateReducedModuleInterface => Some GenerateReducedModuleInterfaceAction
  | _ => None
  end.

Definition unsupportedMessage : string := "Unsupported action kind" +:+ newline.

(** The listener events of a run on session [i]: none without collection,
    one attachment to the session's preprocessor with it; [None] when
    collection is asked of a session that has no preprocessor. *)
Definition attachment (collectPP : bool) (i : CompilerInstance) : option (list Event) :=
  if collectPP
  then match PP i with
       | Some pp => Some [CallTokenCollector pp]
       | None => None
       end
  else Some [].

(** The token index of a successful run that lexed [lexed]. *)
Definition tokenIndex (collectPP : bool) (lexed : list Token) : option TokenBuffer :=
  if collectPP then Some (mkTokenBuffer lexed true) else None.

(** How the result of a build follows the result of the executor run inside
    it: an artifact wraps the executor's [ASTInfo], anything else is passed
    on. *)
Definition lifts {A} (ast : A → ASTInfo) (o : Outcome (Expected ASTInfo))
    (o' : Outcome (Expected A)) : Prop :=
  match o with
  | Returned (Success i) => ∃ a, o' = Returned (Success a) ∧ ast a = i
  | Returned (Failure e) => o' = Returned (Failure e)
  | Terminated => o' = Terminated
  | Undefined => o' = Undefined
  end.

Section Shapes.

Context (fe : Frontend).

(** The ways a run of [ExecuteAction] with a supported kind can go. *)
Inductive Run (inst : CompilerInstance) (act : FrontendAction) (collectPP : bool)
    : M (Expected ASTInfo) → Prop :=
| RunTargetFails i1 :
    fe_createTarget fe inst = (false, i1) →
    Run inst act collectPP
      (Returned (Failure (error "Failed to create target")),
       [CallCreateTarget inst false])
| RunNoInput i1 :
    fe_createTarget fe inst = (true, i1) →
    Inputs (getFrontendOpts i1) !! 0%nat = None →
    Run inst act collectPP (Undefined, [CallCreateTarget inst true])
| RunBeginFails i1 input i2 :
    fe_createTarget fe inst = (true, i1) →
    Inputs (getFrontendOpts i1) !! 0%nat = Some input →
    fe_BeginSourceFile fe act i1 input = (false, i2) →
    Run inst act collectPP
      (Returned (Failure (error "Failed to begin source file")),
       [CallCreateTarget inst true; CallBeginSourceFile act i1 input false])
| RunNoPreprocessor i1 input i2 :
    fe_createTarget fe inst = (true, i1) →
    Inputs (getFrontendOpts i1) !! 0%nat = Some input →
    fe_BeginSourceFile fe act i1 input = (true, i2) →
    attachment collectPP i2 = None →
    Run inst act collectPP
      (Undefined,
       [CallCreateTarget inst true; CallBeginSourceFile act i1 input true])
| RunExecuteFails i1 input i2 listen e i3 lexed :
    fe_createTarget fe inst = (true, i1) →
    Inputs (getFrontendOpts i1) !! 0%nat = Some input →
    fe_BeginSourceFile fe act i1 input = (true, i2) →
    attachment collectPP i2 = Some listen →
    fe_Execute fe act i2 = (Some e, i3, lexed) →
    Run inst act collectPP
      (Returned (Failure (error_with "Failed to execute action, because {} " e)),
       [CallCreateTarget inst true; CallBeginSourceFile act i1 input true]
         ++ listen ++ [CallExecute act i2 (Some e)])%list
| RunSucceeds i1 input i2 listen i3 lexed :
    fe_createTarget fe inst = (true, i1) →
    Inputs (getFrontendOpts i1) !! 0%nat = Some input →
    fe_BeginSourceFile fe act i1 input = (true, i2) →
    attachment collectPP i2 = Some listen →
    fe_Execute fe act i2 = (None, i3, lexed) →
    Run inst act collectPP
      (Returned (Success (mkASTInfo act i3 (tokenIndex collectPP lexed))),
       [CallCreateTarget inst true; CallBeginSourceFile act i1 input true]
         ++ listen ++ [CallExecute act i2 None])%list.

(** [m] is a build that, after the events [pre], runs the executor on the
    session [inst] and hands its artifact on through [ast]. *)
Inductive Build {A} (ast : A → ASTInfo) (pre : list Event)
    (inst : CompilerInstance) (act : FrontendAction) (collectPP : bool)
    (m : M (Expected A)) : Prop :=
| BuildOf (r : M (Expected ASTInfo)) :
    Run inst act collectPP r →
    log m = (pre ++ log r)%list →
    lifts ast (outcome r) (outcome m) →
    Build ast pre inst act collectPP m.

(** The session [buildAST] hands to the executor. *)
Definition sessionAST (params : CompliationParams) : CompilerInstance :=
  applyPreamble
    (onInvocation
       (withPreprocessorOpts (addRemappedFile (path params) (content params)))
       (createInstance fe (args params)))
    params.

(** The bounds [buildPCH] computes for a self-contained unit. *)
Definition freshBounds (params : CompliationParams) : PreambleBounds :=
  fe_ComputePreamble fe (content params) defaultLangOptions 0.

(** The session [buildPCH] hands to the executor. *)
Definition sessionPCH (params : CompliationParams) : CompilerInstance :=
  onInvocation
    (withPreprocessorOpts
       (addRemappedFile (path params)
          (substr (content params) 0 (N.to_nat (Size (freshBounds params))))))
    (onInvocation (withLangOpts (set_CompilingPCH true))
       (onInvocation (withPreprocessorOpts (set_GeneratePreamble true))
          (onInvocation
             (withPreprocessorOpts (set_PrecompiledPreambleBytes (0%N, false)))
             (onInvocation (withFrontendOpts (set_ProgramAction GeneratePCH))
                (onInvocation (withFrontendOpts (set_OutputFile (outpath params)))
                   (createInstance fe (args params))))))).

End Shapes.

(** The events of a build before it reaches the executor: boundary
    detection, and nothing else. *)
Definition preparatory (pre : list Event) : Prop :=
  ∀ e, e ∈ pre → ∃ buffer opts maxLines result,
    e = CallComputePreamble buffer opts maxLines result.

(** Failures of the three frontend steps are reported, with these messages,
    and an artifact is returned only when all three steps succeeded. *)
Definition failures_reported {A} (m : M (Expected A)) : Prop :=
  (∀ inst, CallCreateTarget inst false ∈ log m →
     outcome m = Returned (Failure (error "Failed to create target"))) ∧
  (∀ act inst input, CallBeginSourceFile act inst input false ∈ log m →
     outcome m = Returned (Failure (error "Failed to begin source file"))) ∧
  (∀ act inst e, CallExecute act inst (Some e) ∈ log m →
     outcome m
     = Returned (Failure (error_with "Failed to execute action, because {} " e))) ∧
  (∀ artifact, outcome m = Returned (Success artifact) →
     ∃ i0 act i1 input i2,
       CallCreateTarget i0 true ∈ log m ∧
       CallBeginSourceFile act i1 input true ∈ log m ∧
       CallExecute act i2 None ∈ log m).

(** Wherever the log attaches a token collector: a successful
    [BeginSourceFile] came before, none comes after, the action has not been
    executed yet, and every execution that follows runs on a session whose
    preprocessor is the one the collector listens to. *)
Definition listener_after_begin (l : list Event) : Prop :=
  ∀ before pp after, l = (before ++ CallTokenCollector pp :: after)%list →
    (∃ act inst input, CallBeginSourceFile act inst input true ∈ before) ∧
    (∀ act inst input ok, CallBeginSourceFile act inst input ok ∉ after) ∧
    (∀ act inst err, CallExecute act inst err ∉ before) ∧
    (∀ act inst err, CallExecute act inst err ∈ after → PP inst = Some pp).

(** Every execution in the log has a collector listening to its
    preprocessor. *)
Definition executions_observed (l : list Event) : Prop :=
  ∀ act inst err, CallExecute act inst err ∈ l →
    ∃ pp, CallTokenCollector pp ∈ l ∧ PP inst = Some pp.

(** The abort of [ExecuteAction] on an unsupported kind leaves this in the
    log. *)
Definition unsupported_abort (l : list Event) : Prop :=
  WriteErrs unsupportedMessage ∈ l.

Definition is_collector (e : Event) : Prop :=
  match e with CallTokenCollector _ => True | _ => False end.

(** Inputs on which the claims are evaluated. *)
Module Inputs.

(** A session whose command line already names the interface of module [M]. *)
Definition sessionWithM : CompilerInstance :=
  onInvocation
    (withHeaderSearchOpts (set_PrebuiltModuleFiles {["M" := "/old/M.pcm"]}))
    newCompilerInstance.

(** No preamble to reuse; interfaces for [M] and [N]. *)
Definition coldWithModules : CompliationParams :=
  mkCompliationParams "import M; import N;" "main.cpp" "" "main.cpp" ["main.cpp"]
    "" (mkPreambleBounds 0 false) [("M", "/new/M.pcm"); ("N", "/new/N.pcm")].

(** A preamble of 13 bytes to reuse. *)
Definition warm : CompliationParams :=
  mkCompliationParams ("#include <a>" +:+ newline +:+ "int x;") "main.cpp" ""
    "main.cpp" ["main.cpp"] "main.pch" (mkPreambleBounds 13 true) [].

End Inputs.

(** Replaces a closed run by its value. *)
Ltac evaluate m :=
  let v := eval vm_compute in m in
  replace m with v by (vm_compute; reflexivity).



(** ** The sessions of the other entry points, and the steps of a run *)

Section Sessions.

Context (fe : Frontend).

(** The session [buildPCM] hands to the executor. *)
Definition sessionPCM (params : CompliationParams) : CompilerInstance :=
  applyPreamble
    (onInvocation
       (withPreprocessorOpts (addRemappedFile (path params) (content params)))
       (onInvocation
          (withFrontendOpts (set_ProgramAction GenerateReducedModuleInterface))
          (onInvocation (withFrontendOpts (set_OutputFile (outpath params)))
             (createInstance fe (args params)))))
    params.

(** The session [codeCompleteAt] hands to the executor. *)
Definition sessionComplete (params : CompliationParams) (line column : N)
    (file : string) (consumer : CodeCompleteConsumer) : CompilerInstance :=
  applyPreamble
    (onInvocation
       (withPreprocessorOpts (addRemappedFile (path params) (content params)))
       (setCodeCompletionConsumer consumer
          (onInvocation
             (withFrontendOpts
                (set_CodeCompletionAt (mkParsedSourceLocation file line column)))
             (createInstance fe (args params)))))
    params.

End Sessions.

(** What an event of the log is, without its arguments. *)
Inductive Step :=
| StepBounds
| StepTarget (ok : bool)
| StepBegin (ok : bool)
| StepAttach
| StepExecute (ok : bool)
| StepWrite
| StepTerminate.

Definition stepOf (e : Event) : Step :=
  match e with
  | CallComputePreamble _ _ _ _ => StepBounds
  | CallCreateTarget _ ok => StepTarget ok
  | CallBeginSourceFile _ _ _ ok => StepBegin ok
  | CallTokenCollector _ => StepAttach
  | CallExecute _ _ None => StepExecute true
  | CallExecute _ _ (Some _) => StepExecute false
  | WriteErrs _ => StepWrite
  | CallTerminate => StepTerminate
  end.

Definition steps (l : list Event) : list Step := stepOf <$> l.

(** How a build ends, without the artifact. *)
Inductive Ending :=
| EndsWithArtifact
| EndsWithFailure (text : string)
| EndsTerminated
| EndsUndefined.

Definition endingOf {A} (o : Outcome (Expected A)) : Ending :=
  match o with
  | Returned (Success _) => EndsWithArtifact
  | Returned (Failure e) => EndsWithFailure (message e)
  | Terminated => EndsTerminated
  | Undefined => EndsUndefined
  end.

(** The runs of the executor once the action object exists: how each ends
    and which steps it has taken. *)
Definition executorRuns (collectPP : bool) : list (Ending * list Step) :=
  [ (EndsWithFailure "Failed to create target", [StepTarget false]);
    (EndsUndefined, [StepTarget true]);
    (EndsWithFailure "Failed to begin source file",
     [StepTarget true; StepBegin false]) ]
  ++ (if collectPP
      then [ (EndsUndefined, [StepTarget true; StepBegin true]);
             (EndsWithFailure "Failed to execute action, because {} ",
              [StepTarget true; StepBegin true; StepAttach; StepExecute false]);
             (EndsWithArtifact,
              [StepTarget true; StepBegin true; StepAttach; StepExecute true]) ]
      else [ (EndsWithFailure "Failed to execute action, because {} ",
              [StepTarget true; StepBegin true; StepExecute false]);
             (EndsWithArtifact,
              [StepTarget true; StepBegin true; StepExecute true]) ]).

(** The fixed policy of a session, and the diagnostics sink every session
    is given. *)
Definition hasPolicy (session : CompilerInstance) : Prop :=
  DisableFree (getFrontendOpts session) = false ∧
  ParseAllComments (getLangOpts session) = true ∧
  RetainCommentsFromSystemHeaders (getLangOpts session) = true ∧
  Diagnostics session = Some (mkDiagnosticsEngine TextDiagnosticPrinter_outs true).

(** The preprocessor options [applyPreamble] leaves in a session whose
    options were [o]. *)
Definition reusedPreprocessorOpts (params : CompliationParams)
    (o : PreprocessorOptions) : PreprocessorOptions :=
  if negb (Size (bounds params) =? 0)%N
  then set_DisablePCHOrModuleValidation DisableValidation_PCH
         (set_PrecompiledPreambleBytes
            (Size (bounds params), PreambleEndsAtStartOfLine (bounds params))
            (set_ImplicitPCHInclude (pch params) (set_UsePredefines false o)))
  else o.

(** Parameters that differ from [params] in the module pairs only. *)
Definition withPcms (params : CompliationParams) (l : list (string * string))
    : CompliationParams :=
  mkCompliationParams (content params) (path params) (outpath params)
    (mainpath params) (args params) (pch params) (bounds params) l.

(** Parameters that differ from [params] in the prior preamble only. *)
Definition withPreamble (params : CompliationParams) (pch' : string)
    (bounds' : PreambleBounds) : CompliationParams :=
  mkCompliationParams (content params) (path params) (outpath params)
    (mainpath params) (args params) pch' bounds' (pcms params).

(** * The inlay hint feature (Feature/InlayHint.cpp)

    The functions of the feature that work on texts, options and finished
    hints.  The clang AST and the [SourceConverter] are not part of the
    sources; where a function reads them, what it reads is an argument. *)
Module InlayHints.

(** ** Texts *)

Definition chars (s : string) : list Ascii.ascii := String.list_ascii_of_string s.
Definition of_chars (l : list Ascii.ascii) : string := String.string_of_list_ascii l.

(** [size_t] is 64 bits wide; [a - b] on it wraps around. *)
Definition size_t_modulus : N := (2 ^ 64)%N.
Definition size_t_sub (a b : N) : N := ((a + size_t_modulus - b) mod size_t_modulus)%N.

(** How a function ends that may throw or leave the defined behaviour of the
    language. *)
Inductive Exception :=
| length_error.

Inductive Raised (A : Type) :=
| Value (a : A)
| Throws (e : Exception)
| UndefinedBehaviour.
Arguments Value {A} a.
Arguments Throws {A} e.
Arguments UndefinedBehaviour {A}.

#[global] Instance Raised_ret : MRet Raised := λ A a, Value a.
#[global] Instance Raised_bind : MBind Raised := λ A B f m,
  match m with
  | Value a => f a
  | Throws e => Throws e
  | UndefinedBehaviour => UndefinedBehaviour
  end.

Section Strings.

(** [std::string::max_size()], which the implementation defines. *)
Context (max_size : N).

(** [std::string::resize(n)]: throws when [n] exceeds [max_size()], cuts the
    text to its first [n] characters or pads it with null characters. *)
Definition resize (s : string) (n : N) : Raised string :=
  if (max_size <? n)%N then Throws length_error
  else Value (of_chars (take (N.to_nat n) (chars s)
                      ++ replicate (N.to_nat n - String.length s) Ascii.zero)).

(** [std::string::append(t)]. *)
Definition append (s t : string) : Raised string :=
  if (max_size <? N.of_nat (String.length s) + N.of_nat (String.length t))%N
  then Throws length_error
  else Value (s +:+ t).

(** Shrink the hint text to the max length. *)
Definition shrinkHintText (text : string) (maxLength : N) : Raised string :=
  if (maxLength <? N.of_nat (String.length text))%N
  then text ← resize text (size_t_sub maxLength 3); append text "..."
  else Value text.

End Strings.

(** ** Options, kinds and hints *)

Module config.

(** Options for inlay hints.  [maxLength] and [maxArrayElements] are
    [uint16_t]. *)
Record InlayHintOption := mkInlayHintOption {
  maxLength : N;
  maxArrayElements : N;
  dedcucedType : bool;
  returnType : bool;
  blockEnd : bool;
  paramName : bool;
  structSizeAndAlign : bool;
  memberSizeAndOffset : bool;
  implicitCast : bool;
  chainCall : bool;
  numberLiteralToHex : bool;
  cstrLength : bool }.

(** A default-constructed option. *)
Definition default : InlayHintOption :=
  mkInlayHintOption 30 3 true true false true true true false false false false.

(** The option of the collection for the index: a default option with these
    assignments. *)
Definition enableAll : InlayHintOption :=
  mkInlayHintOption 0 0 (dedcucedType default) (returnType default) true
    (paramName default) (structSizeAndAlign default)
    (memberSizeAndOffset default) true true true true.

End config.

(** [feature::inlay_hint::InlayHintKind].  The kind the source calls
    [Parameter] is [Param] here, that name being a reserved word. *)
Inductive InlayHintKind :=
| Invalid
| AutoDecl
| StructureBinding
| Param
| Constructor
| FunctionReturnType
| LambdaReturnType
| IfBlockEnd
| SwitchBlockEnd
| WhileBlockEnd
| ForBlockEnd
| NamespaceEnd
| TagDeclEnd
| FunctionEnd
| LambdaBodyEnd
| ArrayIndex
| StructSizeAndAlign
| MemberSizeAndOffset
| ImplicitCast
| ChainCall
| NumberLiteralToHex
| CStrLength.

(** [LocalSourceRange] is declared in [Basic/SourceCode.h], which is not
    among the sources.  It is taken with the two fields the feature assigns
    and compares, the offsets [begin] and [end] into one file. *)
Record LocalSourceRange := mkLocalSourceRange {
  range_begin : N;
  range_end : N }.

Record Lable := mkLable {
  value : string;
  location : LocalSourceRange }.

Record InlayHint := mkInlayHint {
  kind : InlayHintKind;
  offset : N;
  lable : Lable }.

(** The structures of the language server protocol.  [InlayHintLablePart],
    [InlayHintKind] and [InlayHint] are declared in the header of the
    feature.  [Position], [Range], [Location] and [MarkupContent] are
    declared in [Basic/Document.h], which is not among the sources; they are
    taken with the fields the feature assigns and reads.  The kinds [Type]
    and [Parameter] are [LspType] and [LspParameter] here, those names being
    reserved words. *)
Module proto.

Record Position := mkPosition {
  line : N;
  character : N }.

Record Range := mkRange {
  range_start : Position;
  range_stop : Position }.

Record Location := mkLocation {
  uri : string;
  range : Range }.

Record MarkupContent := mkMarkupContent {
  markup : string }.                   (* the field [value] of the source *)

Inductive InlayHintKind :=
| LspInvalid
| LspType
| LspParameter.

Record InlayHintLablePart := mkInlayHintLablePart {
  value : string;
  tooltip : MarkupContent;
  location : Location }.

Record InlayHint := mkInlayHint {
  position : Position;
  lable : list InlayHintLablePart;
  kind : InlayHintKind;
  paddingLeft : bool;
  paddingRight : bool }.

End proto.

(** [SourceConverter] is declared in [Basic/SourceConverter.h], which is not
    among the sources.  The conversion to the protocol calls it twice; the
    two functions are fields of a record. *)
Record SourceConverter := mkSourceConverter {
  toRange : LocalSourceRange → string → proto.Range;
  toPosition : string → N → proto.Position }.

(** Create a blank markup content as a place holder. *)
Definition blank : proto.MarkupContent := proto.mkMarkupContent "".

(** Check if the kind is related to type kind in LSP. *)
Definition isLspTypeKind (k : InlayHintKind) : bool :=
  match k with
  | AutoDecl | StructureBinding | FunctionReturnType | LambdaReturnType
  | ImplicitCast | ChainCall => true
  | _ => false
  end.

Definition isLspParameterKind (k : InlayHintKind) : bool := negb (isLspTypeKind k).

Definition toLspKind (k : InlayHintKind) : proto.InlayHintKind :=
  if isLspTypeKind k then proto.LspType else proto.LspParameter.

Definition isAvailableWithOption (k : InlayHintKind) (c : config.InlayHintOption)
    : bool :=
  match k with
  | Invalid => false
  | AutoDecl | StructureBinding => config.dedcucedType c
  | Param | Constructor => config.paramName c
  | FunctionReturnType | LambdaReturnType => config.returnType c
  | IfBlockEnd | SwitchBlockEnd | WhileBlockEnd | ForBlockEnd | NamespaceEnd
  | TagDeclEnd | FunctionEnd | LambdaBodyEnd => config.blockEnd c
  | ArrayIndex => (0 <? config.maxArrayElements c)%N
  | StructSizeAndAlign => config.structSizeAndAlign c
  | MemberSizeAndOffset => config.memberSizeAndOffset c
  | ImplicitCast => config.implicitCast c
  | ChainCall => config.chainCall c
  | NumberLiteralToHex => config.numberLiteralToHex c
  | CStrLength => config.cstrLength c
  end.

Section Conversion.

Context (max_size : N).

(** Convert a [Lable] to a label part of the protocol. *)
Definition toLspLable (l : Lable) (maxHintLength : N) (docuri content : string)
    (SC : SourceConverter) : Raised proto.InlayHintLablePart :=
  shrunk ← shrinkHintText max_size (value l) maxHintLength;
  mret (proto.mkInlayHintLablePart shrunk blank
          (proto.mkLocation docuri (toRange SC (location l) content))).

(** Convert an [InlayHint] to a hint of the protocol. *)
Definition toLspHint (hint : InlayHint) (maxHintLength : N) (docuri content : string)
    (SC : SourceConverter) : Raised proto.InlayHint :=
  part ← toLspLable (lable hint) maxHintLength docuri content SC;
  mret (proto.mkInlayHint (toPosition SC content (offset hint)) [part]
          (toLspKind (kind hint)) false false).

(** [config->maxLength] on a [std::optional]. *)
Definition arrow_maxLength (c : option config.InlayHintOption) : Raised N :=
  match c with
  | Some c => Value (config.maxLength c)
  | None => UndefinedBehaviour
  end.

(** Convert a [Result] to the hints of the protocol, filtered by the option
    when there is one. *)
Fixpoint toLspLoop (result : list InlayHint) (docuri : string)
    (c : option config.InlayHintOption) (content : string) (SC : SourceConverter)
    (lspRes : list proto.InlayHint) : Raised (list proto.InlayHint) :=
  match result with
  | [] => Value lspRes
  | hint :: result =>
      if match c with
         | Some c => negb (isAvailableWithOption (kind hint) c)
         | None => false
         end
      then toLspLoop result docuri c content SC lspRes
      else
        maxLength ← arrow_maxLength c;
        converted ← toLspHint hint maxLength docuri content SC;
        toLspLoop result docuri c content SC (lspRes ++ [converted])
  end.

Definition toLspType (result : list InlayHint) (docuri : string)
    (c : option config.InlayHintOption) (content : string) (SC : SourceConverter)
    : Raised (list proto.InlayHint) :=
  toLspLoop result docuri c content SC [].

End Conversion.

(** ** The texts the collector inspects *)

(** [llvm::toLower]. *)
Definition toLower (c : Ascii.ascii) : Ascii.ascii :=
  let n := Ascii.nat_of_ascii c in
  if bool_decide (65 ≤ n ≤ 90)%nat then Ascii.ascii_of_nat (n + 32) else c.

(** [llvm::StringRef::equals_insensitive]. *)
Definition equals_insensitive (a b : string) : bool :=
  bool_decide (toLower <$> chars a = toLower <$> chars b).

(** [llvm::StringRef::starts_with_insensitive]. *)
Definition starts_with_insensitive (s p : string) : bool :=
  bool_decide (String.length p ≤ String.length s)%nat &&
  equals_insensitive (of_chars (take (String.length p) (chars s))) p.


Definition ends_with (s p : string) : bool :=
  bool_decide (chars p `suffix_of` chars s).

(** [llvm::StringRef::drop_front(n)], which asserts that [n] characters are
    there. *)
Definition drop_front (n : nat) (s : string) : string := of_chars (drop n (chars s)).

(** The characters [ltrim] and [rtrim] remove by default: space, tab, line
    feed, vertical tab, form feed and carriage return. *)
Definition isTrimmed (c : Ascii.ascii) : bool :=
  let n := Ascii.nat_of_ascii c in
  bool_decide (n = 32 ∨ 9 ≤ n ≤ 13)%nat.

Fixpoint drop_while (p : Ascii.ascii → bool) (l : list Ascii.ascii)
    : list Ascii.ascii :=
  match l with
  | [] => []
  | c :: l' => if p c then drop_while p l' else l
  end.



Definition rtrim (s : string) : string :=
  of_chars (reverse (drop_while isTrimmed (reverse (chars s)))).



Definition substr_to (s : string) (n : N) : string :=
  of_chars (take (N.to_nat n) (chars s)).

(** ** What the collector reads of the AST *)

(** [clang::FileID] is known by its number; a location by what
    [getDecomposedLoc] says of it. *)
Abbreviation FileID := Z.

(** What the collector reads of a [clang::CXXMethodDecl]: its name and the
    names of its parameters. *)
Record CXXMethodDecl := mkCXXMethodDecl {
  getName : string;
  parameters : list string }.

Definition getNumParams (md : CXXMethodDecl) : nat := length (parameters md).

Definition withoutUnderscores (s : string) : string :=
  of_chars (filter (λ c, c ≠ Ascii.ascii_of_nat 95) (chars s)).

Definition isSimpleSetter (md : CXXMethodDecl) : bool :=
  if negb (getNumParams md =? 1)%nat then false else
  let name := getName md in
  if negb (starts_with_insensitive name "set") then false else
  let fnname := withoutUnderscores (drop_front 3 name) in
  let param := withoutUnderscores (default "" (parameters md !! 0%nat)) in
  equals_insensitive fnname param.

(** What the collector reads of a parameter declaration and of an argument
    expression. *)
Record ParmVarDecl := mkParmVarDecl {
  parm_name : string;
  parm_isLValueReference : bool;       (* getType()->isLValueReferenceType() *)
  parm_isConstQualified : bool;        (* getNonReferenceType().isConstQualified() *)
  parm_range : LocalSourceRange }.     (* cvtr.toLocalRange(getSourceRange(), src) *)

(** What the collector reads of a [clang::SourceLocation].  The file of
    [getDecomposedLoc] is the one [getFileID] gives. *)
Record SourceLocation := mkSourceLocation {
  decomposed : FileID * N;             (* src.getDecomposedLoc(loc) *)
  localRange : LocalSourceRange;       (* cvtr.toLocalRange(loc, src) *)
  lspLine : N }.                       (* cvtr.toPosition(loc, src).line *)

Record Expr := mkExpr {
  isPackExpansion : bool;              (* isa<PackExpansionExpr> *)
  isDefaultArg : bool;                 (* isa<CXXDefaultArgExpr> *)
  isDesignatedInit : bool;             (* isa<DesignatedInitExpr> *)
  identifier : string;                 (* takeExprIdentifier *)
  getBeginLoc : SourceLocation }.      (* also getSourceRange().getBegin() *)

(** ** The collector *)

(** The result of inlay hints, per file. *)
Abbreviation Storage := (gmap FileID (list InlayHint)).

(** [result[fid].push_back(hint)]. *)
Definition push_back (fid : FileID) (hint : InlayHint) (result : Storage) : Storage :=
  <[fid := (default [] (result !! fid) ++ [hint])%list]> result.

(** The fields of the collector that never change during a traversal. *)
Record InlayHintCollector := mkInlayHintCollector {
  mainFileID : FileID;                 (* src.getMainFileID() *)
  limit : LocalSourceRange;
  options : config.InlayHintOption;
  onlyMain : bool;
  code : string;
  lineOf : N → N }.                    (* cvtr.toPosition(code, offset).line *)

(** What [needFilter] reads of a [clang::SourceRange]. *)
Record SourceRange := mkSourceRange {
  isInvalid : bool;
  beginInMainFile : bool;              (* src.isInMainFile(getBegin()) *)
  endInMainFile : bool;
  beginOffset : N;                     (* src.getDecomposedLoc(getBegin()).second *)
  endOffset : N }.

Section Collector.

Context (max_size : N) (self : InlayHintCollector).

(** Do not produce inlay hints if either range ends is not within the main
    file. *)
Definition needFilter (r : SourceRange) : bool :=
  if isInvalid r then true else
  if negb (onlyMain self) then false else
  if negb (beginInMainFile r) || negb (endInMainFile r) then true else
  let begin := beginOffset r in
  let stop := endOffset r in
  if (stop <? range_begin (limit self))%N || (range_end (limit self) <? begin)%N
  then true
  else false.

Definition tryShrinkHintText (text : string) : Raised string :=
  if onlyMain self
  then shrinkHintText max_size text (config.maxLength (options self))
  else Value text.

(** Check if there is any comment like /*paramName*/ before a argument. *)
Definition hasHandWriteComment (argumentBegin : FileID * N) : bool :=
  let '(fid, offset) := argumentBegin in
  if negb (bool_decide (fid = mainFileID self)) then false else
  let content := rtrim (substr_to (code self) offset) in
  ends_with content "*/".

Definition needHintArgument (param : ParmVarDecl) (arg : Expr) : bool :=
  let name := parm_name param in
  if bool_decide (name = "") then false else
  if equals_insensitive name (identifier arg) then false else
  if hasHandWriteComment (decomposed (getBeginLoc arg)) then false else
  true.

Definition isPassedAsMutableLValueRef (param : ParmVarDecl) : bool :=
  parm_isLValueReference param && negb (parm_isConstQualified param).

(** The loop of [collectArgumentHint], over the parameters and arguments
    that are left. *)
Fixpoint collectArgumentHint (params : list ParmVarDecl) (args : list Expr)
    (kind : InlayHintKind) (result : Storage) : Raised Storage :=
  match params, args with
  | param :: params, arg :: args =>
      if isPackExpansion arg || isDefaultArg arg then Value result else
      if negb (needHintArgument param arg)
      then collectArgumentHint params args kind result else
      let hintRef := isPassedAsMutableLValueRef param in
      let parmName := parm_name param +:+ (if hintRef then "&" else "") +:+ ":" in
      shrunk ← tryShrinkHintText parmName;
      let lable := mkLable shrunk (parm_range param) in
      let argBeginLoc := getBeginLoc arg in
      let hint := mkInlayHint kind (decomposed argBeginLoc).2 lable in
      let fid :=
        if onlyMain self then mainFileID self else (decomposed argBeginLoc).1 in
      collectArgumentHint params args kind (push_back fid hint result)
  | _, _ => Value result
  end.

Definition collectArrayElemIndexHint (index : N) (location : SourceLocation)
    (result : Storage) : Storage :=
  let lable := mkLable ("[" +:+ pretty index +:+ "]=") (localRange location) in
  let hint := mkInlayHint ArrayIndex (decomposed location).2 lable in
  let fid := if onlyMain self then mainFileID self else (decomposed location).1 in
  push_back fid hint result.

(** The loop of [VisitInitListExpr]; [count] is the counter of the source. *)
Fixpoint visitInits (inits : list Expr) (count : N) (result : Storage) : Storage :=
  match inits with
  | [] => result
  | init :: inits =>
      if isDesignatedInit init || hasHandWriteComment (decomposed (getBeginLoc init))
      then visitInits inits count result else
      if (config.maxArrayElements (options self) <=? count)%N then result else
      let count := (count + 1)%N in
      visitInits inits count
        (collectArrayElemIndexHint count (getBeginLoc init) result)
  end.

Definition VisitInitListExpr (inits : list Expr) (result : Storage) : Storage :=
  visitInits inits 0 result.


End Collector.

(** This enum decide how to handle the duplicated block-end hint in the same
    line. *)
Inductive DecideDuplicated :=
| AcceptBoth
| Replace
| Ignore.

#[global] Instance DecideDuplicated_eq_dec : EqDecision DecideDuplicated.
Proof. solve_decision. Defined.

Section BlockEnd.

Context (max_size : N) (self : InlayHintCollector).



End BlockEnd.

End InlayHints.

(** ** Inputs on which the properties of the feature are evaluated *)
Module InlaySample.

(** [max_size()] of a [std::string] of libstdc++ on a 64-bit machine. *)
Definition max_size : N := (2 ^ 62 - 1)%N.

(** A call with a hand-written comment before its first argument. *)
Definition source : string := "f(/*x*/ 1, y);".

(** The line of an offset: the line feeds before it. *)
Definition lineOf (code : string) (offset : N) : N :=
  N.of_nat
    (length (filter (λ c, Ascii.nat_of_ascii c = 10%nat)
               (take (N.to_nat offset) (InlayHints.chars code)))).

Definition SC : InlayHints.SourceConverter :=
  InlayHints.mkSourceConverter
    (λ r _,
       InlayHints.proto.mkRange
         (InlayHints.proto.mkPosition 0 (InlayHints.range_begin r))
         (InlayHints.proto.mkPosition 0 (InlayHints.range_end r)))
    (λ content offset, InlayHints.proto.mkPosition (lineOf content offset) offset).

(** The collector of a request on the main file, and the one of the
    index. *)
Definition mainCollector : InlayHints.InlayHintCollector :=
  InlayHints.mkInlayHintCollector 1 (InlayHints.mkLocalSourceRange 0 14)
    InlayHints.config.default true source (lineOf source).

Definition indexCollector : InlayHints.InlayHintCollector :=
  InlayHints.mkInlayHintCollector 1 (InlayHints.mkLocalSourceRange 0 0)
    InlayHints.config.enableAll false source (lineOf source).

Definition locationAt (offset : N) : InlayHints.SourceLocation :=
  InlayHints.mkSourceLocation (1%Z, offset)
    (InlayHints.mkLocalSourceRange offset offset) (lineOf source offset).

(** The arguments [1] and [y] of the call, and two parameters. *)
Definition argOne : InlayHints.Expr :=
  InlayHints.mkExpr false false false "" (locationAt 8).

Definition argY : InlayHints.Expr :=
  InlayHints.mkExpr false false false "y" (locationAt 11).

Definition parmX : InlayHints.ParmVarDecl :=
  InlayHints.mkParmVarDecl "x" false false (InlayHints.mkLocalSourceRange 20 25).

Definition parmWidth : InlayHints.ParmVarDecl :=
  InlayHints.mkParmVarDecl "width" true false (InlayHints.mkLocalSourceRange 27 37).

(** Two finished hints: a long deduced type and a parameter name. *)
Definition typeHint : InlayHints.InlayHint :=
  InlayHints.mkInlayHint InlayHints.AutoDecl 6
    (InlayHints.mkLable ": std::map<std::string, std::vector<int>>"
       (InlayHints.mkLocalSourceRange 0 6)).

Definition paramHint : InlayHints.InlayHint :=
  InlayHints.mkInlayHint InlayHints.Param 11
    (InlayHints.mkLable "width&:" (InlayHints.mkLocalSourceRange 27 37)).

Definition blockHint : InlayHints.InlayHint :=
  InlayHints.mkInlayHint InlayHints.NamespaceEnd 14
    (InlayHints.mkLable "// namespace a" (InlayHints.mkLocalSourceRange 0 14)).

End InlaySample.

(** ** The vocabulary of the properties of the feature *)

(** The text [shrinkHintText] returns, where it returns one. *)
Definition shrunkTo (max_size : N) (text : string) (maxLength : N) : string :=
  match InlayHints.shrinkHintText max_size text maxLength with
  | InlayHints.Value shrunk => shrunk
  | _ => text
  end.

(** The hint of the protocol a finished hint is converted to. *)
Definition converted (max_size : N) (maxLength : N) (docuri content : string)
    (SC : InlayHints.SourceConverter) (hint : InlayHints.InlayHint)
    : InlayHints.proto.InlayHint :=
  InlayHints.proto.mkInlayHint
    (InlayHints.toPosition SC content (InlayHints.offset hint))
    [InlayHints.proto.mkInlayHintLablePart
       (shrunkTo max_size (InlayHints.value (InlayHints.lable hint)) maxLength)
       InlayHints.blank
       (InlayHints.proto.mkLocation docuri
          (InlayHints.toRange SC (InlayHints.location (InlayHints.lable hint))
             content))]
    (InlayHints.toLspKind (InlayHints.kind hint)) false false.

(** A name without its underscores, in lower case. *)
Definition canonical (s : string) : list Ascii.ascii :=
  InlayHints.toLower
    <$> filter (λ c, c ≠ Ascii.ascii_of_nat 95) (InlayHints.chars s).

(** All hints of a list pushed, in order. *)
Definition pushAll (hints : list (InlayHints.FileID * InlayHints.InlayHint))
    (result : InlayHints.Storage) : InlayHints.Storage :=
  foldl (λ result hint, InlayHints.push_back hint.1 hint.2 result) result hints.

(** The initializers that can get an index hint: not designated, not
    preceded by a comment. *)
Definition eligibleInits (self : InlayHints.InlayHintCollector)
    (inits : list InlayHints.Expr) : list InlayHints.Expr :=
  filter (λ init,
            InlayHints.isDesignatedInit init
            || InlayHints.hasHandWriteComment self
                 (InlayHints.decomposed (InlayHints.getBeginLoc init)) = false)
    inits.

(** The hint with number [index] at [location], and the file it goes to. *)
Definition indexHint (self : InlayHints.InlayHintCollector) (index : N)
    (location : InlayHints.SourceLocation)
    : InlayHints.FileID * InlayHints.InlayHint :=
  (if InlayHints.onlyMain self then InlayHints.mainFileID self
   else (InlayHints.decomposed location).1,
   InlayHints.mkInlayHint InlayHints.ArrayIndex (InlayHints.decomposed location).2
     (InlayHints.mkLable ("[" +:+ pretty index +:+ "]=")
        (InlayHints.localRange location))).

Definition arrayIndexHints (self : InlayHints.InlayHintCollector)
    (inits : list InlayHints.Expr)
    : list (InlayHints.FileID * InlayHints.InlayHint) :=
  imap (λ i init, indexHint self (N.of_nat (S i)) (InlayHints.getBeginLoc init))
    (take (N.to_nat (InlayHints.config.maxArrayElements (InlayHints.options self)))
       (eligibleInits self inits)).

(** The pairs of parameter and argument the loop reaches: those before the
    first pack expansion or default argument. *)
Fixpoint argumentsReached (params : list InlayHints.ParmVarDecl)
    (args : list InlayHints.Expr)
    : list (InlayHints.ParmVarDecl * InlayHints.Expr) :=
  match params, args with
  | param :: params, arg :: args =>
      if InlayHints.isPackExpansion arg || InlayHints.isDefaultArg arg then []
      else (param, arg) :: argumentsReached params args
  | _, _ => []
  end.

(** Those of them that get a hint. *)
Definition argumentsHinted (self : InlayHints.InlayHintCollector)
    (params : list InlayHints.ParmVarDecl) (args : list InlayHints.Expr)
    : list (InlayHints.ParmVarDecl * InlayHints.Expr) :=
  filter (λ pair, InlayHints.needHintArgument self pair.1 pair.2 = true)
    (argumentsReached params args).

(** The text of the hint for a parameter, before it is shrunk. *)
Definition parameterText (param : InlayHints.ParmVarDecl) : string :=
  InlayHints.parm_name param
  +:+ (if InlayHints.isPassedAsMutableLValueRef param then "&" else "") +:+ ":".

(** The hint for a pair, with the text shrunk by [shrink], and its file. *)
Definition argumentHint (self : InlayHints.InlayHintCollector)
    (shrink : string → string) (kind : InlayHints.InlayHintKind)
    (pair : InlayHints.ParmVarDecl * InlayHints.Expr)
    : InlayHints.FileID * InlayHints.InlayHint :=
  let location := InlayHints.getBeginLoc pair.2 in
  (if InlayHints.onlyMain self then InlayHints.mainFileID self
   else (InlayHints.decomposed location).1,
   InlayHints.mkInlayHint kind (InlayHints.decomposed location).2
     (InlayHints.mkLable (shrink (parameterText pair.1))
        (InlayHints.parm_range pair.1))).


(** The text [tryShrinkHintText] returns, where it returns one. *)
Definition tryShrunk (max_size : N) (self : InlayHints.InlayHintCollector)
    (text : string) : string :=
  match InlayHints.tryShrinkHintText max_size self text with
  | InlayHints.Value shrunk => shrunk
  | _ => text
  end.

(** * Properties *)

(** ** Session construction *)

Section SessionFacts.

Context (fe : Frontend).

Lemma adjustInvocation_policy (invocation : CompilerInvocation) :
  DisableFree (FrontendOpts (adjustInvocation invocation)) = false ∧
  ParseAllComments (LangOpts (adjustInvocation invocation)) = true ∧
  RetainCommentsFromSystemHeaders (LangOpts (adjustInvocation invocation)) = true.
Proof. by destruct invocation as [[] [] ? ?]. Qed.

(** What [adjustInvocation] does not assign, it leaves alone. *)
Lemma adjustInvocation_frame (invocation : CompilerInvocation) :
  PreprocessorOpts (adjustInvocation invocation) = PreprocessorOpts invocation ∧
  HeaderSearchOpts (adjustInvocation invocation) = HeaderSearchOpts invocation ∧
  Inputs (FrontendOpts (adjustInvocation invocation)) = Inputs (FrontendOpts invocation) ∧
  CompilingPCH (LangOpts (adjustInvocation invocation)) = CompilingPCH (LangOpts invocation).
Proof. by destruct invocation as [[] [] ? ?]. Qed.

Lemma createInstance_invocation (args : list string) :
  Invocation (createInstance fe args) = adjustInvocation (fe_createInvocation fe args).
Proof. reflexivity. Qed.

End SessionFacts.

(** ** Reuse binder *)

Section ReuseFacts.

Implicit Types (instance : CompilerInstance) (params : CompliationParams).
Implicit Types (m : gmap string string) (l : list (string * string)).

Lemma try_emplace_union name path m :
  try_emplace name path m = m ∪ {[name := path]}.
Proof.
  unfold try_emplace. apply map_eq. intros k.
  destruct (m !! name) as [old|] eqn:Hname.
  - rewrite lookup_union. destruct (decide (k = name)) as [->|Hne].
    + by rewrite Hname, lookup_singleton_eq.
    + rewrite lookup_singleton_ne by done. by destruct (m !! k).
  - rewrite insert_union_singleton_r by done. done.
Qed.

Lemma registerModule_frame instance entry :
  FrontendOpts (Invocation (registerModule instance entry)) = FrontendOpts (Invocation instance) ∧
  LangOpts (Invocation (registerModule instance entry)) = LangOpts (Invocation instance) ∧
  PreprocessorOpts (Invocation (registerModule instance entry)) = PreprocessorOpts (Invocation instance).
Proof. by destruct entry. Qed.

Lemma registerModule_files instance entry :
  PrebuiltModuleFiles (getHeaderSearchOpts (registerModule instance entry))
  = PrebuiltModuleFiles (getHeaderSearchOpts instance) ∪ {[entry.1 := entry.2]}.
Proof. destruct entry as [name path]. simpl. apply try_emplace_union. Qed.

Lemma foldl_registerModule_frame l instance :
  FrontendOpts (Invocation (foldl registerModule instance l)) = FrontendOpts (Invocation instance) ∧
  LangOpts (Invocation (foldl registerModule instance l)) = LangOpts (Invocation instance) ∧
  PreprocessorOpts (Invocation (foldl registerModule instance l)) = PreprocessorOpts (Invocation instance).
Proof.
  revert instance. induction l as [|entry l IH]; intros instance; [done|].
  simpl. destruct (IH (registerModule instance entry)) as (-> & -> & ->).
  apply registerModule_frame.
Qed.

Lemma foldl_registerModule_files l instance :
  PrebuiltModuleFiles (getHeaderSearchOpts (foldl registerModule instance l))
  = PrebuiltModuleFiles (getHeaderSearchOpts instance) ∪ list_to_map l.
Proof.
  revert instance. induction l as [|entry l IH]; intros instance; simpl.
  - by rewrite (right_id_L ∅ (∪)).
  - rewrite IH, registerModule_files, <- (assoc_L (∪)).
    by rewrite <- insert_union_singleton_l.
Qed.

(** The body of [applyPreamble] is the [if] followed by the loop. *)
Lemma applyPreamble_loop instance params :
  ∃ configured,
    applyPreamble instance params = foldl registerModule configured (pcms params) ∧
    getHeaderSearchOpts configured = getHeaderSearchOpts instance ∧
    getPreprocessorOpts configured
    = (if negb (Size (bounds params) =? 0)%N
       then set_DisablePCHOrModuleValidation DisableValidation_PCH
              (set_PrecompiledPreambleBytes
                 (Size (bounds params), PreambleEndsAtStartOfLine (bounds params))
                 (set_ImplicitPCHInclude (pch params)
                    (set_UsePredefines false (getPreprocessorOpts instance))))
       else getPreprocessorOpts instance) ∧
    getFrontendOpts configured = getFrontendOpts instance ∧
    getLangOpts configured = getLangOpts instance.
Proof.
  unfold applyPreamble. eexists. split; [reflexivity|].
  by destruct (negb _).
Qed.

End ReuseFacts.

(** ** The executor *)

Section ExecutorFacts.

Context (fe : Frontend).

Ltac run_step :=
  unfold mbind, M_bind, mret, M_ret, emit, undefined, createTarget, firstInput,
    BeginSourceFile, getPreprocessor, newTokenCollector, Execute; simpl.

Lemma ExecuteAction_supported inst kind act collectPP :
  actionFor kind = Some act →
  Run fe inst act collectPP (ExecuteAction fe inst kind collectPP).
Proof.
  intros Hkind.
  assert (∀ k, actionFor k = Some act →
            ExecuteAction fe inst k collectPP
            = ('(ok, instance) ← createTarget fe inst;
               if negb ok then mret (Failure (error "Failed to create target")) else
               input ← firstInput (Inputs (getFrontendOpts instance));
               '(ok, instance) ← BeginSourceFile fe act instance input;
               if negb ok then mret (Failure (error "Failed to begin source file")) else
               if collectPP then
                 pp ← getPreprocessor instance;
                 collector ← newTokenCollector pp;
                 '(err, instance', lexed) ← Execute fe act instance;
                 let collector := onTokensLexed (PP instance) lexed collector in
                 match err with
                 | Some e =>
                     mret (Failure (error_with "Failed to execute action, because {} " e))
                 | None =>
                     mret (Success (mkASTInfo act instance'
                                      (Some (indexExpandedTokens (consume collector)))))
                 end
               else
                 '(err, instance', _) ← Execute fe act instance;
                 match err with
                 | Some e =>
                     mret (Failure (error_with "Failed to execute action, because {} " e))
                 | None => mret (Success (mkASTInfo act instance' None))
                 end)) as Hbody.
  { intros k Hk. destruct k; simplify_eq/=; reflexivity. }
  rewrite (Hbody kind Hkind). clear Hbody Hkind. run_step.
  destruct (fe_createTarget fe inst) as [[] i1] eqn:Htarget; simpl;
    [|by eapply RunTargetFails].
  destruct (Inputs (getFrontendOpts i1) !! 0%nat) as [input|] eqn:Hinput; simpl;
    [|by eapply RunNoInput].
  destruct (fe_BeginSourceFile fe act i1 input) as [[] i2] eqn:Hbegin; simpl;
    [|by eapply RunBeginFails].
  destruct collectPP; simpl.
  - destruct (PP i2) as [pp|] eqn:Hpp; simpl.
    + destruct (fe_Execute fe act i2) as [[[e|] i3] lexed] eqn:Hexec; simpl.
      * eapply (RunExecuteFails fe inst act true i1 input i2 [CallTokenCollector pp]);
          eauto. unfold attachment. by rewrite Hpp.
      * assert (onTokensLexed (Some pp) lexed (mkTokenCollector pp []) =
                mkTokenCollector pp lexed) as ->.
        { unfold onTokensLexed. simpl. by rewrite bool_decide_eq_true_2. }
        eapply (RunSucceeds fe inst act true i1 input i2 [CallTokenCollector pp]);
          eauto. unfold attachment. by rewrite Hpp.
    + eapply RunNoPreprocessor; eauto. unfold attachment. by rewrite Hpp.
  - destruct (fe_Execute fe act i2) as [[[e|] i3] lexed] eqn:Hexec; simpl.
    + by eapply (RunExecuteFails fe inst act false i1 input i2 []).
    + by eapply (RunSucceeds fe inst act false i1 input i2 []).
Qed.

Lemma ExecuteAction_unsupported inst kind collectPP :
  actionFor kind = None →
  ExecuteAction fe inst kind collectPP
  = (Terminated, [WriteErrs unsupportedMessage; CallTerminate]).
Proof. intros Hkind. destruct kind; simplify_eq/=; reflexivity. Qed.

End ExecutorFacts.

(** ** The entry points as runs of the executor *)

Section BuildFacts.

Context (fe : Frontend).

Lemma lifts_id o : lifts id o o.
Proof. destruct o as [[i|e]| |]; simpl; eauto. Qed.

Lemma wrap_log {A B} (f : A → B) (m : M (Expected A)) :
  log (info ← m;
       match info with
       | Success info => mret (Success (f info))
       | Failure e => mret (Failure e)
       end) = log m.
Proof.
  destruct m as [[[i|e]| |] l]; unfold log, mbind, M_bind, mret, M_ret; simpl;
    by rewrite ?app_nil_r.
Qed.

Lemma wrap_outcome {B} (f : ASTInfo → B) (ast : B → ASTInfo) (m : M (Expected ASTInfo)) :
  (∀ i, ast (f i) = i) →
  lifts ast (outcome m)
    (outcome (info ← m;
              match info with
              | Success info => mret (Success (f info))
              | Failure e => mret (Failure e)
              end)).
Proof.
  intros Hast.
  destruct m as [[[i|e]| |] l]; unfold outcome, mbind, M_bind, mret, M_ret; simpl;
    eauto.
Qed.

Lemma emit_log {A} (e : Event) (m : M A) : log (emit e;; m) = e :: log m.
Proof. reflexivity. Qed.

Lemma emit_outcome {A} (e : Event) (m : M A) : outcome (emit e;; m) = outcome m.
Proof. reflexivity. Qed.

Lemma buildAST_build params :
  Build fe id [] (sessionAST fe params) SyntaxOnlyAction true (buildAST fe params).
Proof.
  eapply (BuildOf fe _ _ _ _ _ _
            (ExecuteAction fe (sessionAST fe params) ParseSyntaxOnly true)).
  - by apply ExecuteAction_supported.
  - reflexivity.
  - apply lifts_id.
Qed.

Lemma codeCompleteAt_build params line column file consumer :
  ∃ inst,
    Build fe id [] inst SyntaxOnlyAction false
      (codeCompleteAt fe params line column file consumer).
Proof.
  eexists.
  eapply (BuildOf fe _ _ _ _ _ _ (ExecuteAction fe _ ParseSyntaxOnly false)).
  - by apply ExecuteAction_supported.
  - reflexivity.
  - apply lifts_id.
Qed.

Lemma buildPCM_build params :
  ∃ inst,
    Build fe pcm_info [] inst GenerateReducedModuleInterfaceAction true
      (buildPCM fe params).
Proof.
  eexists.
  eapply (BuildOf fe _ _ _ _ _ _
            (ExecuteAction fe _ GenerateReducedModuleInterface true)).
  - by apply ExecuteAction_supported.
  - unfold buildPCM. by rewrite wrap_log.
  - unfold buildPCM. by apply wrap_outcome.
Qed.

Lemma buildPCH_unfold params :
  mainpath params = path params →
  buildPCH fe params
  = (emit (CallComputePreamble (content params) defaultLangOptions 0
             (freshBounds fe params));;
     info ← ExecuteAction fe (sessionPCH fe params) GeneratePCH true;
     match info with
     | Success info =>
         mret (Success (mkPCHInfo info (outpath params) (content params)
                          (mainpath params) (freshBounds fe params)))
     | Failure e => mret (Failure e)
     end).
Proof.
  intros Hself. unfold buildPCH. rewrite bool_decide_eq_true_2 by done.
  reflexivity.
Qed.

Lemma buildPCH_build params :
  mainpath params = path params →
  Build fe pch_info
    [CallComputePreamble (content params) defaultLangOptions 0 (freshBounds fe params)]
    (sessionPCH fe params) GeneratePCHAction true (buildPCH fe params).
Proof.
  intros Hself. rewrite buildPCH_unfold by done.
  eapply (BuildOf fe _ _ _ _ _ _
            (ExecuteAction fe (sessionPCH fe params) GeneratePCH true)).
  - by apply ExecuteAction_supported.
  - rewrite emit_log. simpl. f_equal.
    apply (wrap_log (λ info, mkPCHInfo info _ _ _ _)).
  - rewrite emit_outcome.
    by apply (wrap_outcome (λ info, mkPCHInfo info _ _ _ _)).
Qed.

Lemma buildPCH_foreign params :
  mainpath params ≠ path params →
  buildPCH fe params = (Terminated, [CallTerminate]).
Proof.
  intros Hforeign. unfold buildPCH. rewrite bool_decide_eq_false_2 by done.
  reflexivity.
Qed.

End BuildFacts.

(** ** What every build that reaches the executor satisfies *)

Lemma split_at_unique {A} (P : A → Prop) (l1 l2 l1' l2' : list A) (x x' : A) :
  P x' → (∀ y, y ∈ l1 → ¬ P y) → (∀ y, y ∈ l2 → ¬ P y) → P x →
  (l1 ++ x :: l2 = l1' ++ x' :: l2')%list →
  l1' = l1 ∧ x' = x ∧ l2' = l2.
Proof.
  revert l1'. induction l1 as [|y l1 IH]; intros l1' Hx' H1 H2 Hx Heq.
  - destruct l1' as [|y' l1']; simplify_eq/=; [done|].
    exfalso. apply (H2 x'); [|done]. apply elem_of_app. right. apply elem_of_cons. by left.
  - destruct l1' as [|y' l1']; simplify_eq/=.
    + exfalso. apply (H1 x'); [|done]. apply elem_of_cons. by left.
    + destruct (IH l1') as (-> & -> & ->); try done.
      intros z Hz. apply H1. apply elem_of_cons. by right.
Qed.

Section RunFacts.

Context (fe : Frontend).
Context {A : Type} (ast : A → ASTInfo).
Context (pre : list Event) (inst : CompilerInstance) (act : FrontendAction).
Context (collectPP : bool) (m : M (Expected A)).
Context (Hpre : preparatory pre).
Context (Hbuild : Build fe ast pre inst act collectPP m).

Ltac split_in H :=
  repeat match type of H with
         | _ ∈ (_ ++ _)%list => apply elem_of_app in H as [H|H]
         | _ ∈ _ :: _ => apply elem_of_cons in H as [H|H]
         | _ ∈ [] => by apply elem_of_nil in H
         | _ ∈ pre => apply Hpre in H as (? & ? & ? & ? & ?); simplify_eq
         end.

Ltac pick :=
  repeat first [ apply elem_of_app; right | by apply elem_of_cons; left
               | apply elem_of_cons; right ].

Ltac concrete_listen :=
  repeat match goal with
         | H : attachment ?c ?i = _ |- _ =>
             unfold attachment in H;
             destruct c; [destruct (PP i) eqn:?|]; simplify_eq/=
         end.

Lemma Build_failures_reported : failures_reported m.
Proof.
  destruct Hbuild as [r Hrun Hlog Hlift].
  unfold failures_reported. rewrite Hlog.
  destruct Hrun; concrete_listen; unfold log, outcome in *; simpl in *;
    (split; [|split; [|split]]);
    try (intros; match goal with H : _ ∈ _ |- _ => split_in H; by simplify_eq end);
    try (intros ? ?; destruct Hlift as (? & ? & ?); congruence);
    try (intros ? ?; congruence);
    intros artifact _; eexists _, _, _, _, _; (split; [|split]); pick.
Qed.

Lemma Build_listener_after_begin : listener_after_begin (log m).
Proof.
  destruct Hbuild as [r Hrun Hlog Hlift].
  unfold listener_after_begin. rewrite Hlog. clear Hlog Hlift.
  intros before pp after Hsplit.
  assert (CallTokenCollector pp ∈ (pre ++ log r)%list) as Hin.
  { rewrite Hsplit. apply elem_of_app. right. apply elem_of_cons. by left. }
  destruct Hrun; concrete_listen; unfold log in *; simpl in *;
    try (split_in Hin; by simplify_eq).
  all: match type of Hsplit with
       | (pre ++ ?e0 :: ?e1 :: CallTokenCollector ?p :: ?rest)%list = _ =>
           destruct (split_at_unique is_collector (pre ++ [e0; e1]) rest before after
                       (CallTokenCollector p) (CallTokenCollector pp))
             as (-> & Heq & ->);
           [ done
           | intros y Hy; split_in Hy; subst; simpl; tauto
           | intros y Hy; split_in Hy; subst; simpl; tauto
           | done
           | by rewrite <- Hsplit, <- app_assoc
           | inversion Heq; subst ]
       end.
  all: split; [eexists _, _, _; pick|].
  all: split; [intros ???? Hx; split_in Hx; by simplify_eq|].
  all: split; [intros ??? Hx; split_in Hx; by simplify_eq|].
  all: intros ??? Hx; split_in Hx; by simplify_eq.
Qed.

Lemma Build_executions_observed : collectPP = true → executions_observed (log m).
Proof.
  intros Hcollect. destruct Hbuild as [r Hrun Hlog Hlift].
  unfold executions_observed. rewrite Hlog. clear Hlog Hlift.
  intros act' inst' err Hin.
  destruct Hrun; concrete_listen; unfold log in *; simpl in *;
    split_in Hin; simplify_eq; eexists; (split; [pick|done]).
Qed.

Lemma Build_token_index artifact :
  outcome m = Returned (Success artifact) →
  ∃ session,
    CallExecute act session None ∈ log m ∧
    tokBuf (ast artifact) = tokenIndex collectPP (fe_Execute fe act session).2.
Proof.
  destruct Hbuild as [r Hrun Hlog Hlift]. rewrite Hlog. intros Hsuccess.
  destruct Hrun; unfold log, outcome in *; simpl in *;
    try (destruct Hlift as (made & Hmade & Hast)); try congruence.
  assert (made = artifact) as -> by congruence.
  exists i2. split; [pick|].
  match goal with H : fe_Execute _ _ _ = _ |- _ => rewrite H end.
  by rewrite Hast.
Qed.

Lemma Build_reaches_executor :
  (¬ unsupported_abort (log m)) ∧
  (CallTerminate ∉ log m) ∧
  outcome m ≠ Terminated ∧
  ∃ ok rest, log m = (pre ++ CallCreateTarget inst ok :: rest)%list.
Proof.
  destruct Hbuild as [r Hrun Hlog Hlift].
  unfold unsupported_abort. rewrite Hlog.
  destruct Hrun; concrete_listen; unfold log, outcome in *; simpl in *;
    (split; [intros Hin; split_in Hin; by simplify_eq|]);
    (split; [intros Hin; split_in Hin; by simplify_eq|]);
    (split; [try (destruct Hlift as (? & ? & ?)); congruence|]);
    by eexists _, _.
Qed.

Lemma Build_one_session session ok :
  CallCreateTarget session ok ∈ log m → session = inst.
Proof.
  destruct Hbuild as [r Hrun Hlog Hlift]. rewrite Hlog. intros Hin.
  destruct Hrun; concrete_listen; unfold log in *; simpl in *;
    split_in Hin; by simplify_eq.
Qed.

Lemma Build_bounds_before_executor buffer opts maxLines result :
  CallComputePreamble buffer opts maxLines result ∈ log m →
  CallComputePreamble buffer opts maxLines result ∈ pre.
Proof.
  destruct Hbuild as [r Hrun Hlog Hlift]. rewrite Hlog. intros Hin.
  apply elem_of_app in Hin as [Hin|Hin]; [done|]. exfalso.
  destruct Hrun; concrete_listen; unfold log in *; simpl in *;
    split_in Hin; by simplify_eq.
Qed.

End RunFacts.

(** ** Logs without the events a property speaks of *)

Lemma preparatory_nil : preparatory [].
Proof. intros e He. by apply elem_of_nil in He. Qed.

Lemma preparatory_bounds buffer opts maxLines result :
  preparatory [CallComputePreamble buffer opts maxLines result].
Proof. intros e He. apply list_elem_of_singleton in He. eauto. Qed.

Lemma failures_reported_terminated {A} (l : list Event) :
  (∀ e, e ∈ l → e = CallTerminate ∨ ∃ text, e = WriteErrs text) →
  failures_reported ((Terminated, l) : M (Expected A)).
Proof.
  intros Hl. unfold failures_reported, log, outcome. simpl.
  repeat split; try (intros; match goal with H : _ ∈ l |- _ =>
                                 apply Hl in H as [?|[? ?]]; discriminate end).
  intros ? ?. discriminate.
Qed.

Lemma listener_after_begin_none (l : list Event) :
  (∀ e, e ∈ l → ¬ is_collector e) → listener_after_begin l.
Proof.
  intros Hl before pp after ->. exfalso.
  apply (Hl (CallTokenCollector pp)); [|done].
  apply elem_of_app. right. apply elem_of_cons. by left.
Qed.

Lemma executions_observed_none (l : list Event) :
  (∀ e, e ∈ l → e = CallTerminate ∨ ∃ text, e = WriteErrs text) →
  executions_observed l.
Proof.
  intros Hl act inst err Hin. apply Hl in Hin as [?|[? ?]]; discriminate.
Qed.

Lemma abort_log_events (e : Event) :
  e ∈ [WriteErrs unsupportedMessage; CallTerminate] →
  e = CallTerminate ∨ ∃ text, e = WriteErrs text.
Proof.
  intros He. apply elem_of_cons in He as [->|He]; [eauto|].
  apply list_elem_of_singleton in He. eauto.
Qed.

Lemma terminate_log_events (e : Event) :
  e ∈ [CallTerminate] → e = CallTerminate ∨ ∃ text, e = WriteErrs text.
Proof. intros He. apply list_elem_of_singleton in He. eauto. Qed.

Lemma ExecuteAction_build (fe : Frontend) inst kind act collectPP :
  actionFor kind = Some act →
  Build fe id [] inst act collectPP (ExecuteAction fe inst kind collectPP).
Proof.
  intros Hkind.
  eapply (BuildOf _ _ _ _ _ _ _ (ExecuteAction fe inst kind collectPP)).
  - by apply ExecuteAction_supported.
  - reflexivity.
  - apply lifts_id.
Qed.

(** The abort branch of [ExecuteAction] is taken exactly on the kinds that
    are none of the three supported ones. *)
Lemma ExecuteAction_abort_iff (fe : Frontend) inst kind collectPP :
  unsupported_abort (log (ExecuteAction fe inst kind collectPP)) ↔
  kind ≠ ParseSyntaxOnly ∧ kind ≠ GeneratePCH ∧
  kind ≠ GenerateReducedModuleInterface.
Proof.
  destruct (actionFor kind) as [act|] eqn:Hkind.
  - split.
    + intros Habort.
      by destruct (Build_reaches_executor fe id [] inst act collectPP _
                     preparatory_nil (ExecuteAction_build fe _ _ _ _ Hkind))
        as (Hno & _).
    + intros (? & ? & ?). destruct kind; simplify_eq/=; done.
  - rewrite ExecuteAction_unsupported by done. split.
    + intros _. destruct kind; simplify_eq/=; done.
    + intros _. unfold unsupported_abort, log. simpl. apply list_elem_of_here.
Qed.

(** ** Prefixes of the source text *)

Lemma substring_0_prefix (s : string) (n : nat) :
  (∃ tail, s = String.substring 0 n s +:+ tail) ∧
  String.length (String.substring 0 n s) = Nat.min n (String.length s).
Proof.
  revert n. induction s as [|c s IH]; intros [|n]; simpl.
  - split; [by exists EmptyString|done].
  - split; [by exists EmptyString|done].
  - split; [by eexists|done].
  - destruct (IH n) as [[tail Htail] Hlen]. split.
    + exists tail.
      change (String c s = String c (String.substring 0 n s +:+ tail)).
      by f_equal.
    + by rewrite Hlen.
Qed.

Lemma substr_0_prefix (s : string) (n : nat) :
  (∃ tail, s = substr s 0 n +:+ tail) ∧
  String.length (substr s 0 n) = Nat.min n (String.length s).
Proof.
  unfold substr. simpl. rewrite Nat.sub_0_r.
  destruct (substring_0_prefix s (Nat.min n (String.length s))) as [Hpre Hlen].
  split; [done|]. rewrite Hlen. lia.
Qed.

(** * The claims *)

(** C3. For every argument list, the session that [createInstance] builds
    carries the fixed policy of [adjustInvocation], whatever the command line
    asked for: [DisableFree] is off, so what was parsed lives as long as the
    session, and all comments are parsed and kept, those of system headers
    included.  [adjustInvocation] sets these three options on every
    invocation it is given. *)
Theorem C3_session_policy_unconditional (fe : Frontend) (args : list string) :
  (DisableFree (getFrontendOpts (createInstance fe args)) = false ∧
   ParseAllComments (getLangOpts (createInstance fe args)) = true ∧
   RetainCommentsFromSystemHeaders (getLangOpts (createInstance fe args)) = true) ∧
  (∀ invocation,
     DisableFree (FrontendOpts (adjustInvocation invocation)) = false ∧
     ParseAllComments (LangOpts (adjustInvocation invocation)) = true ∧
     RetainCommentsFromSystemHeaders (LangOpts (adjustInvocation invocation)) = true).
Proof.
  split; [|apply adjustInvocation_policy].
  unfold getFrontendOpts, getLangOpts. rewrite createInstance_invocation.
  apply adjustInvocation_policy.
Qed.

(** C4. The two branches of [applyPreamble].  With [bounds.Size = 0] the
    preprocessor options of the session are left exactly as they were.  With
    [bounds.Size <> 0] predefines are switched off, the prior preamble is the
    implicit PCH include, the precompiled preamble bytes are
    [(Size, PreambleEndsAtStartOfLine)], and validation is disabled for PCH;
    the remaining preprocessor options are untouched. *)
Theorem C4_applyPreamble_branches (instance : CompilerInstance)
    (params : CompliationParams) :
  (Size (bounds params) = 0%N →
   getPreprocessorOpts (applyPreamble instance params) = getPreprocessorOpts instance) ∧
  (Size (bounds params) ≠ 0%N →
   UsePredefines (getPreprocessorOpts (applyPreamble instance params)) = false ∧
   ImplicitPCHInclude (getPreprocessorOpts (applyPreamble instance params))
   = pch params ∧
   PrecompiledPreambleBytes (getPreprocessorOpts (applyPreamble instance params))
   = (Size (bounds params), PreambleEndsAtStartOfLine (bounds params)) ∧
   DisablePCHOrModuleValidation (getPreprocessorOpts (applyPreamble instance params))
   = DisableValidation_PCH ∧
   GeneratePreamble (getPreprocessorOpts (applyPreamble instance params))
   = GeneratePreamble (getPreprocessorOpts instance) ∧
   RemappedFileBuffers (getPreprocessorOpts (applyPreamble instance params))
   = RemappedFileBuffers (getPreprocessorOpts instance)).
Proof.
  destruct (applyPreamble_loop instance params)
    as (configured & -> & _ & Hpp & _ & _).
  unfold getPreprocessorOpts in *.
  destruct (foldl_registerModule_frame (pcms params) configured) as (_ & _ & ->).
  rewrite Hpp. split; intros Hsize.
  - by rewrite Hsize.
  - apply N.eqb_neq in Hsize. by rewrite Hsize.
Qed.

Lemma C4_applyPreamble_branches_witness :
  getPreprocessorOpts (applyPreamble Inputs.sessionWithM Inputs.coldWithModules)
  = getPreprocessorOpts Inputs.sessionWithM ∧
  UsePredefines (getPreprocessorOpts (applyPreamble Inputs.sessionWithM Inputs.warm))
  = false ∧
  ImplicitPCHInclude (getPreprocessorOpts (applyPreamble Inputs.sessionWithM Inputs.warm))
  = "main.pch" ∧
  PrecompiledPreambleBytes
    (getPreprocessorOpts (applyPreamble Inputs.sessionWithM Inputs.warm))
  = (13%N, true).
Proof.
  split.
  - apply (C4_applyPreamble_branches Inputs.sessionWithM Inputs.coldWithModules).
    reflexivity.
  - assert (Size (bounds Inputs.warm) ≠ 0%N) as Hwarm by (simpl; lia).
    destruct (proj2 (C4_applyPreamble_branches Inputs.sessionWithM Inputs.warm) Hwarm)
      as (H1 & H2 & H3 & _).
    exact (conj H1 (conj H2 H3)).
Defined.

(** C9, as the claim states it, fails: a supplied pair is not registered when
    the session already binds the module's name.  Here the session maps [M]
    to [/old/M.pcm], the parameters supply [M] with [/new/M.pcm], and after
    [applyPreamble] the session still maps [M] to the old file. *)
Lemma C9_supplied_pair_not_registered :
  ("M", "/new/M.pcm") ∈ pcms Inputs.coldWithModules ∧
  PrebuiltModuleFiles
    (getHeaderSearchOpts (applyPreamble Inputs.sessionWithM Inputs.coldWithModules))
  !! "M" = Some "/old/M.pcm" ∧
  PrebuiltModuleFiles
    (getHeaderSearchOpts (applyPreamble Inputs.sessionWithM Inputs.coldWithModules))
  !! "M" ≠ Some "/new/M.pcm".
Proof.
  split; [|split].
  - simpl. apply list_elem_of_here.
  - vm_compute. reflexivity.
  - vm_compute. discriminate.
Qed.

(** C9, amended.  Whatever the bounds, a zero size included, [applyPreamble]
    offers every supplied pair to the session's prebuilt module files with
    [try_emplace]: the files afterwards are the session's own bindings,
    which are kept, extended by the supplied pairs, the first pair of a name
    winning.  So every supplied name is bound afterwards, a binding the
    session already had is unchanged, and a supplied pair is registered as
    supplied when the session did not bind its name and no other pair has
    that name. *)
Theorem C9_modules_offered_whatever_the_bounds (instance : CompilerInstance)
    (params : CompliationParams) :
  let before := PrebuiltModuleFiles (getHeaderSearchOpts instance) in
  let after := PrebuiltModuleFiles (getHeaderSearchOpts (applyPreamble instance params)) in
  after = before ∪ list_to_map (pcms params) ∧
  (∀ name path, (name, path) ∈ pcms params → is_Some (after !! name)) ∧
  (∀ name old, before !! name = Some old → after !! name = Some old) ∧
  (∀ name path,
     (name, path) ∈ pcms params → before !! name = None → NoDup (pcms params).*1 →
     after !! name = Some path).
Proof.
  intros before after.
  assert (after = before ∪ list_to_map (pcms params)) as Hafter.
  { subst before after.
    destruct (applyPreamble_loop instance params) as (configured & -> & <- & _).
    apply foldl_registerModule_files. }
  split; [done|]. rewrite Hafter. split; [|split].
  - intros name path Hin. rewrite lookup_union.
    assert (is_Some ((list_to_map (pcms params) : gmap string string) !! name))
      as [p Hp].
    { apply not_eq_None_Some. intros Hnone.
      apply not_elem_of_list_to_map in Hnone. apply Hnone.
      apply list_elem_of_fmap. by exists (name, path). }
    rewrite Hp. destruct (before !! name); simpl; eauto.
  - intros name old Hold. by apply lookup_union_Some_l.
  - intros name path Hin Hfree Hnodup.
    rewrite lookup_union_r by done.
    by apply elem_of_list_to_map.
Qed.

Lemma C9_modules_offered_whatever_the_bounds_witness :
  Size (bounds Inputs.coldWithModules) = 0%N ∧
  PrebuiltModuleFiles
    (getHeaderSearchOpts (applyPreamble Inputs.sessionWithM Inputs.coldWithModules))
  !! "N" = Some "/new/N.pcm" ∧
  PrebuiltModuleFiles
    (getHeaderSearchOpts (applyPreamble Inputs.sessionWithM Inputs.coldWithModules))
  !! "M" = Some "/old/M.pcm".
Proof.
  split; [reflexivity|].
  destruct (C9_modules_offered_whatever_the_bounds
              Inputs.sessionWithM Inputs.coldWithModules) as (_ & _ & Hkept & Hnew).
  split.
  - apply Hnew.
    + simpl. apply list_elem_of_further, list_elem_of_here.
    + vm_compute. reflexivity.
    + simpl. apply NoDup_cons. split.
      * intros Hin. apply list_elem_of_singleton in Hin. discriminate.
      * apply NoDup_singleton.
  - apply Hkept. vm_compute. reflexivity.
Defined.

(** C5. In each of the four builds: when the target cannot be created, when
    the action cannot begin on the input file, or when the execution of the
    action ends in an error, the build returns a failure with the message of
    that step (the cause attached for an execution error), and it returns an
    artifact only if the target was created, the action began and the
    execution ended without error. *)
Theorem C5_artifact_only_on_full_success (fe : Frontend)
    (params : CompliationParams) (line column : N) (file : string)
    (consumer : CodeCompleteConsumer) :
  failures_reported (buildAST fe params) ∧
  failures_reported (buildPCH fe params) ∧
  failures_reported (buildPCM fe params) ∧
  failures_reported (codeCompleteAt fe params line column file consumer).
Proof.
  split; [|split; [|split]].
  - eapply Build_failures_reported; [apply preparatory_nil|apply buildAST_build].
  - destruct (decide (mainpath params = path params)) as [Hself|Hforeign].
    + eapply Build_failures_reported;
        [apply preparatory_bounds|by apply buildPCH_build].
    + rewrite buildPCH_foreign by done.
      apply failures_reported_terminated, terminate_log_events.
  - destruct (buildPCM_build fe params) as [inst Hbuild].
    eapply Build_failures_reported; [apply preparatory_nil|exact Hbuild].
  - destruct (codeCompleteAt_build fe params line column file consumer)
      as [inst Hbuild].
    eapply Build_failures_reported; [apply preparatory_nil|exact Hbuild].
Qed.

Lemma C5_artifact_only_on_full_success_witness :
  outcome (buildAST (Sample.frontend false true None) Sample.unit1)
  = Returned (Failure (error "Failed to create target")) ∧
  outcome (buildPCH (Sample.frontend true false None) Sample.unit1)
  = Returned (Failure (error "Failed to begin source file")) ∧
  outcome (buildPCM (Sample.frontend true true (Some "boom")) Sample.unit1)
  = Returned (Failure (error_with "Failed to execute action, because {} " "boom")) ∧
  (∃ i0 act i1 input i2,
     CallCreateTarget i0 true
       ∈ log (codeCompleteAt (Sample.frontend true true None) Sample.unit1 1 1 "main.cpp" 7) ∧
     CallBeginSourceFile act i1 input true
       ∈ log (codeCompleteAt (Sample.frontend true true None) Sample.unit1 1 1 "main.cpp" 7) ∧
     CallExecute act i2 None
       ∈ log (codeCompleteAt (Sample.frontend true true None) Sample.unit1 1 1 "main.cpp" 7)).
Proof.
  split; [|split; [|split]].
  - destruct (C5_artifact_only_on_full_success (Sample.frontend false true None)
                Sample.unit1 1 1 "main.cpp" 7) as ((Htarget & _) & _).
    eapply Htarget.
    evaluate (buildAST (Sample.frontend false true None) Sample.unit1).
    apply list_elem_of_here.
  - destruct (C5_artifact_only_on_full_success (Sample.frontend true false None)
                Sample.unit1 1 1 "main.cpp" 7) as (_ & (_ & Hbegin & _) & _).
    eapply Hbegin.
    evaluate (buildPCH (Sample.frontend true false None) Sample.unit1).
    apply list_elem_of_further, list_elem_of_further, list_elem_of_here.
  - destruct (C5_artifact_only_on_full_success (Sample.frontend true true (Some "boom"))
                Sample.unit1 1 1 "main.cpp" 7) as (_ & _ & (_ & _ & Hexec & _) & _).
    eapply Hexec.
    evaluate (buildPCM (Sample.frontend true true (Some "boom")) Sample.unit1).
    apply list_elem_of_further, list_elem_of_further, list_elem_of_further,
      list_elem_of_here.
  - destruct (C5_artifact_only_on_full_success (Sample.frontend true true None)
                Sample.unit1 1 1 "main.cpp" 7) as (_ & _ & _ & (_ & _ & _ & Hfull)).
    eapply Hfull.
    evaluate (codeCompleteAt (Sample.frontend true true None) Sample.unit1 1 1
                "main.cpp" 7).
    reflexivity.
Defined.

(** C1, as the claim states it, fails for preamble and module-interface
    generation: [buildPCH] and [buildPCM] call [ExecuteAction] without its
    third argument, which defaults to [true], so their artifacts carry a
    token index.  On the sample unit both builds succeed and neither token
    index is null. *)
Lemma C1_generation_builds_carry_token_index :
  (∃ info,
     outcome (buildPCH (Sample.frontend true true None) Sample.unit1)
     = Returned (Success info) ∧
     tokBuf (pch_info info) ≠ None) ∧
  (∃ info,
     outcome (buildPCM (Sample.frontend true true None) Sample.unit1)
     = Returned (Success info) ∧
     tokBuf (pcm_info info) ≠ None).
Proof.
  split.
  - evaluate (buildPCH (Sample.frontend true true None) Sample.unit1).
    eexists. split; [reflexivity|]. simpl. discriminate.
  - evaluate (buildPCM (Sample.frontend true true None) Sample.unit1).
    eexists. split; [reflexivity|]. simpl. discriminate.
Qed.

(** C1, amended.  The token index of a returned artifact follows the
    [collectPP] argument of [ExecuteAction].  [buildAST], [buildPCH] and
    [buildPCM] run with the default, [true]: the artifact each returns has a
    token index, indexed, holding the tokens lexed while the action was
    executed.  Only [codeCompleteAt] passes [false]: the artifact it returns
    has a null token index. *)
Theorem C1_token_index_follows_collectPP (fe : Frontend)
    (params : CompliationParams) (line column : N) (file : string)
    (consumer : CodeCompleteConsumer) :
  (∀ info, outcome (buildAST fe params) = Returned (Success info) →
     ∃ session,
       CallExecute SyntaxOnlyAction session None ∈ log (buildAST fe params) ∧
       tokBuf info
       = Some (mkTokenBuffer (fe_Execute fe SyntaxOnlyAction session).2 true)) ∧
  (∀ info, outcome (buildPCH fe params) = Returned (Success info) →
     ∃ session,
       CallExecute GeneratePCHAction session None ∈ log (buildPCH fe params) ∧
       tokBuf (pch_info info)
       = Some (mkTokenBuffer (fe_Execute fe GeneratePCHAction session).2 true)) ∧
  (∀ info, outcome (buildPCM fe params) = Returned (Success info) →
     ∃ session,
       CallExecute GenerateReducedModuleInterfaceAction session None
         ∈ log (buildPCM fe params) ∧
       tokBuf (pcm_info info)
       = Some (mkTokenBuffer
                 (fe_Execute fe GenerateReducedModuleInterfaceAction session).2 true)) ∧
  (∀ info,
     outcome (codeCompleteAt fe params line column file consumer)
     = Returned (Success info) →
     tokBuf info = None).
Proof.
  split; [|split; [|split]]; intros info Hsuccess.
  - apply (Build_token_index fe id [] _ _ true _ (buildAST_build fe params) info
             Hsuccess).
  - destruct (decide (mainpath params = path params)) as [Hself|Hforeign].
    + apply (Build_token_index fe pch_info _ _ _ true _
               (buildPCH_build fe params Hself) info Hsuccess).
    + rewrite buildPCH_foreign in Hsuccess by done. discriminate.
  - destruct (buildPCM_build fe params) as [inst Hbuild].
    apply (Build_token_index fe pcm_info [] _ _ true _ Hbuild info Hsuccess).
  - destruct (codeCompleteAt_build fe params line column file consumer)
      as [inst Hbuild].
    by destruct (Build_token_index fe id [] _ _ false _ Hbuild info Hsuccess)
      as (session & _ & Hindex).
Qed.

Lemma C1_token_index_follows_collectPP_witness :
  (∃ info,
     outcome (buildAST (Sample.frontend true true None) Sample.unit1)
     = Returned (Success info) ∧ is_Some (tokBuf info)) ∧
  (∃ info,
     outcome (codeCompleteAt (Sample.frontend true true None) Sample.unit1 1 1
                "main.cpp" 7)
     = Returned (Success info) ∧ tokBuf info = None).
Proof.
  destruct (C1_token_index_follows_collectPP (Sample.frontend true true None)
              Sample.unit1 1 1 "main.cpp" 7) as (Hast & _ & _ & Hcomplete).
  split.
  - revert Hast.
    evaluate (buildAST (Sample.frontend true true None) Sample.unit1).
    intros Hast. eexists. split; [reflexivity|].
    destruct (Hast _ eq_refl) as (session & _ & Hindex). simpl in Hindex.
    rewrite Hindex. by eexists.
  - revert Hcomplete.
    evaluate (codeCompleteAt (Sample.frontend true true None) Sample.unit1 1 1
                "main.cpp" 7).
    intros Hcomplete. eexists. split; [reflexivity|].
    by apply Hcomplete.
Defined.

(** C2, as the claim states it, fails: when the unit's path differs from its
    main path, [buildPCH] does not return a failure.  It reaches
    [std::terminate], and no result of any kind comes back.  The sample
    header has path [a.h] and main path [main.cpp]. *)
Lemma C2_foreign_unit_returns_no_failure :
  mainpath Sample.header1 ≠ path Sample.header1 ∧
  outcome (buildPCH (Sample.frontend true true None) Sample.header1) = Terminated ∧
  (∀ e, outcome (buildPCH (Sample.frontend true true None) Sample.header1)
        ≠ Returned (Failure e)).
Proof.
  evaluate (buildPCH (Sample.frontend true true None) Sample.header1).
  split; [|split].
  - simpl. discriminate.
  - reflexivity.
  - intros e. simpl. discriminate.
Qed.

(** C2, amended.  For every unit whose path differs from its main path,
    [buildPCH] ends the process with [std::terminate] right after the session
    is constructed: it returns neither a failure nor an artifact, it does not
    compute a preamble boundary, and it does not start the action. *)
Theorem C2_foreign_unit_terminates (fe : Frontend) (params : CompliationParams) :
  mainpath params ≠ path params →
  outcome (buildPCH fe params) = Terminated ∧
  log (buildPCH fe params) = [CallTerminate] ∧
  (∀ buffer opts maxLines result,
     CallComputePreamble buffer opts maxLines result ∉ log (buildPCH fe params)).
Proof.
  intros Hforeign. rewrite buildPCH_foreign by done.
  split; [done|]. split; [done|].
  intros buffer opts maxLines result Hin.
  apply list_elem_of_singleton in Hin. discriminate.
Qed.

Lemma C2_foreign_unit_terminates_witness :
  outcome (buildPCH (Sample.frontend true true None) Sample.header1) = Terminated ∧
  log (buildPCH (Sample.frontend true true None) Sample.header1) = [CallTerminate].
Proof.
  assert (mainpath Sample.header1 ≠ path Sample.header1) as Hforeign
    by (simpl; discriminate).
  destruct (C2_foreign_unit_terminates (Sample.frontend true true None)
              Sample.header1 Hforeign) as (Hout & Hlog & _).
  exact (conj Hout Hlog).
Defined.

(** C6. In every run of [ExecuteAction] with token collection, and so in
    [buildAST], [buildPCH] and [buildPCM]: wherever the token collector is
    attached, [BeginSourceFile] has succeeded before and is not called again,
    the action has not been executed yet, and the execution that follows runs
    on a session whose preprocessor is the very one the collector listens
    to.  Every execution in such a run is observed by a collector. *)
Theorem C6_collector_attached_after_begin (fe : Frontend)
    (inst : CompilerInstance) (kind : ActionKind) (params : CompliationParams) :
  (listener_after_begin (log (ExecuteAction fe inst kind true)) ∧
   executions_observed (log (ExecuteAction fe inst kind true))) ∧
  (listener_after_begin (log (buildAST fe params)) ∧
   executions_observed (log (buildAST fe params))) ∧
  (listener_after_begin (log (buildPCH fe params)) ∧
   executions_observed (log (buildPCH fe params))) ∧
  (listener_after_begin (log (buildPCM fe params)) ∧
   executions_observed (log (buildPCM fe params))).
Proof.
  split; [|split; [|split]].
  - destruct (actionFor kind) as [act|] eqn:Hkind.
    + pose proof (ExecuteAction_build fe inst kind act true Hkind) as Hbuild.
      split.
      * eapply Build_listener_after_begin; [apply preparatory_nil|exact Hbuild].
      * eapply Build_executions_observed;
          [apply preparatory_nil|exact Hbuild|done].
    + rewrite ExecuteAction_unsupported by done. split.
      * apply listener_after_begin_none. intros e He.
        apply abort_log_events in He as [->|[? ->]]; simpl; tauto.
      * apply executions_observed_none, abort_log_events.
  - pose proof (buildAST_build fe params) as Hbuild. split.
    + eapply Build_listener_after_begin; [apply preparatory_nil|exact Hbuild].
    + eapply Build_executions_observed; [apply preparatory_nil|exact Hbuild|done].
  - destruct (decide (mainpath params = path params)) as [Hself|Hforeign].
    + pose proof (buildPCH_build fe params Hself) as Hbuild. split.
      * eapply Build_listener_after_begin; [apply preparatory_bounds|exact Hbuild].
      * eapply Build_executions_observed;
          [apply preparatory_bounds|exact Hbuild|done].
    + rewrite buildPCH_foreign by done. split.
      * apply listener_after_begin_none. intros e He.
        apply terminate_log_events in He as [->|[? ->]]; simpl; tauto.
      * apply executions_observed_none, terminate_log_events.
  - destruct (buildPCM_build fe params) as [session Hbuild]. split.
    + eapply Build_listener_after_begin; [apply preparatory_nil|exact Hbuild].
    + eapply Build_executions_observed; [apply preparatory_nil|exact Hbuild|done].
Qed.

(** On the sample unit the collector of [buildAST] is attached to
    preprocessor 1, the one [BeginSourceFile] installed, and the execution
    runs on it. *)
Lemma C6_collector_attached_after_begin_witness :
  ∃ before after,
    log (buildAST (Sample.frontend true true None) Sample.unit1)
    = (before ++ CallTokenCollector 1 :: after)%list ∧
    (∃ act inst input, CallBeginSourceFile act inst input true ∈ before) ∧
    (∀ act inst err, CallExecute act inst err ∈ after → PP inst = Some 1%nat).
Proof.
  destruct (C6_collector_attached_after_begin (Sample.frontend true true None)
              newCompilerInstance ParseSyntaxOnly Sample.unit1)
    as (_ & (Horder & _) & _).
  revert Horder.
  evaluate (buildAST (Sample.frontend true true None) Sample.unit1).
  unfold log. simpl. intros Horder.
  destruct (Horder [_; _] _ [_] eq_refl) as (Hbegun & _ & _ & Hruns).
  eexists [_; _], [_]. split; [reflexivity|].
  exact (conj Hbegun Hruns).
Defined.

(** C10. None of the four entry points reaches the abort of [ExecuteAction]
    on an unsupported action kind: the message of that branch is never
    written.  [buildAST], [buildPCM] and [codeCompleteAt] never end in
    [std::terminate] at all; [buildPCH] does exactly when the unit's path
    differs from its main path, which is the other [std::terminate] of the
    file.  In every other run the action object has been created and the
    executor goes on to its first call into the frontend, [createTarget]. *)
Theorem C10_unsupported_kind_unreachable (fe : Frontend)
    (params : CompliationParams) (line column : N) (file : string)
    (consumer : CodeCompleteConsumer) :
  ((¬ unsupported_abort (log (buildAST fe params))) ∧
   (¬ unsupported_abort (log (buildPCH fe params))) ∧
   (¬ unsupported_abort (log (buildPCM fe params))) ∧
   (¬ unsupported_abort (log (codeCompleteAt fe params line column file consumer)))) ∧
  (outcome (buildAST fe params) ≠ Terminated ∧
   outcome (buildPCM fe params) ≠ Terminated ∧
   outcome (codeCompleteAt fe params line column file consumer) ≠ Terminated ∧
   (outcome (buildPCH fe params) = Terminated ↔ mainpath params ≠ path params)) ∧
  ((∃ session ok rest,
      log (buildAST fe params) = CallCreateTarget session ok :: rest) ∧
   (∃ session ok rest,
      log (buildPCM fe params) = CallCreateTarget session ok :: rest) ∧
   (∃ session ok rest,
      log (codeCompleteAt fe params line column file consumer)
      = CallCreateTarget session ok :: rest) ∧
   (mainpath params = path params →
    ∃ computed session ok rest,
      log (buildPCH fe params) = computed :: CallCreateTarget session ok :: rest)).
Proof.
  destruct (Build_reaches_executor fe id [] _ _ _ _ preparatory_nil
              (buildAST_build fe params)) as (Hast1 & _ & Hast2 & ok1 & rest1 & Hast3).
  destruct (buildPCM_build fe params) as [spcm Hpcm].
  destruct (Build_reaches_executor fe pcm_info [] _ _ _ _ preparatory_nil Hpcm)
    as (Hpcm1 & _ & Hpcm2 & ok2 & rest2 & Hpcm3).
  destruct (codeCompleteAt_build fe params line column file consumer) as [scc Hcc].
  destruct (Build_reaches_executor fe id [] _ _ _ _ preparatory_nil Hcc)
    as (Hcc1 & _ & Hcc2 & ok3 & rest3 & Hcc3).
  destruct (decide (mainpath params = path params)) as [Hself|Hforeign].
  - destruct (Build_reaches_executor fe pch_info _ _ _ _ _
                (preparatory_bounds _ _ _ _) (buildPCH_build fe params Hself))
      as (Hpch1 & _ & Hpch2 & ok4 & rest4 & Hpch3).
    repeat split; eauto; try done.
    intros _. rewrite Hpch3. simpl. by eexists _, _, _, _.
  - repeat split; eauto; try done.
    + rewrite buildPCH_foreign by done. unfold unsupported_abort, log. simpl.
      intros Hin. apply list_elem_of_singleton in Hin. discriminate.
    + by rewrite buildPCH_foreign.
Qed.

Lemma C10_unsupported_kind_unreachable_witness :
  (outcome (buildPCH (Sample.frontend true true None) Sample.header1) = Terminated ∧
   ¬ unsupported_abort (log (buildPCH (Sample.frontend true true None) Sample.header1))) ∧
  (∃ computed session ok rest,
     log (buildPCH (Sample.frontend true true None) Sample.unit1)
     = computed :: CallCreateTarget session ok :: rest).
Proof.
  split.
  - destruct (C10_unsupported_kind_unreachable (Sample.frontend true true None)
                Sample.header1 1 1 "a.h" 7)
      as ((_ & Hquiet & _) & (_ & _ & _ & Hiff) & _).
    split; [|exact Hquiet].
    apply Hiff. simpl. discriminate.
  - destruct (C10_unsupported_kind_unreachable (Sample.frontend true true None)
                Sample.unit1 1 1 "main.cpp" 7) as (_ & _ & (_ & _ & _ & Hfirst)).
    apply Hfirst. reflexivity.
Defined.

(** The result of a wrapped executor run is the wrapped artifact. *)
Lemma wrap_success {A B} (f : A → B) (m : M (Expected A)) (b : B) :
  outcome (info ← m;
           match info with
           | Success info => mret (Success (f info))
           | Failure e => mret (Failure e)
           end) = Returned (Success b) →
  ∃ a, b = f a.
Proof.
  destruct m as [[[a|e]| |] l]; unfold outcome, mbind, M_bind, mret, M_ret; simpl;
    intros Hb; simplify_eq. by exists a.
Qed.

Lemma buildPCH_bounds (fe : Frontend) (params : CompliationParams) (info : PCHInfo) :
  mainpath params = path params →
  outcome (buildPCH fe params) = Returned (Success info) →
  pch_bounds info = fe_ComputePreamble fe (content params) defaultLangOptions 0.
Proof.
  intros Hself. rewrite buildPCH_unfold by done. rewrite emit_outcome.
  intros Hsuccess.
  apply (wrap_success (λ info, mkPCHInfo info _ _ _ _)) in Hsuccess as [a ->].
  reflexivity.
Qed.

(** Every boundary computation of [buildPCH] is the one on the unit's own
    text, with default language options and no line limit. *)
Lemma buildPCH_computation (fe : Frontend) (params : CompliationParams)
    buffer opts maxLines result :
  CallComputePreamble buffer opts maxLines result ∈ log (buildPCH fe params) →
  buffer = content params ∧ opts = defaultLangOptions ∧ maxLines = 0%N ∧
  result = fe_ComputePreamble fe (content params) defaultLangOptions 0.
Proof.
  intros Hin. destruct (decide (mainpath params = path params)) as [Hself|Hforeign].
  - apply (Build_bounds_before_executor fe pch_info _ _ _ _ _
             (buildPCH_build fe params Hself)) in Hin.
    apply list_elem_of_singleton in Hin. by simplify_eq.
  - rewrite buildPCH_foreign in Hin by done.
    apply list_elem_of_singleton in Hin. discriminate.
Qed.

(** C7. Whenever [buildPCH] hands a session to the frontend, the bounds
    have been computed afresh from the unit's own text, and in that session:
    nothing of the supplied preamble or module parameters has been applied
    (the options [applyPreamble] would write are those of the command line,
    no preamble bytes are precompiled, no module file is added); the output
    file is [outpath], the program action is [GeneratePCH], a preamble is
    generated and a PCH is compiled; and the unit's path is remapped to the
    prefix of the source text of length [bounds.Size], clamped to the text.
    For a self-contained unit the session is handed over, right after the
    computation of the bounds.  The whole run is the same whatever preamble,
    bounds and modules the parameters supply. *)
Theorem C7_preamble_generation_session (fe : Frontend) (params : CompliationParams) :
  let fresh := fe_ComputePreamble fe (content params) defaultLangOptions 0 in
  let fed := substr (content params) 0 (N.to_nat (Size fresh)) in
  let configured := fe_createInvocation fe (args params) in
  (∀ session ok, CallCreateTarget session ok ∈ log (buildPCH fe params) →
     CallComputePreamble (content params) defaultLangOptions 0 fresh
       ∈ log (buildPCH fe params) ∧
     (UsePredefines (getPreprocessorOpts session)
      = UsePredefines (PreprocessorOpts configured) ∧
      ImplicitPCHInclude (getPreprocessorOpts session)
      = ImplicitPCHInclude (PreprocessorOpts configured) ∧
      DisablePCHOrModuleValidation (getPreprocessorOpts session)
      = DisablePCHOrModuleValidation (PreprocessorOpts configured) ∧
      PrebuiltModuleFiles (getHeaderSearchOpts session)
      = PrebuiltModuleFiles (HeaderSearchOpts configured) ∧
      PrecompiledPreambleBytes (getPreprocessorOpts session) = (0%N, false)) ∧
     (OutputFile (getFrontendOpts session) = outpath params ∧
      ProgramAction (getFrontendOpts session) = GeneratePCH ∧
      GeneratePreamble (getPreprocessorOpts session) = true ∧
      CompilingPCH (getLangOpts session) = true) ∧
     RemappedFileBuffers (getPreprocessorOpts session)
     = (RemappedFileBuffers (PreprocessorOpts configured) ++ [(path params, fed)])%list) ∧
  (mainpath params = path params →
   ∃ session ok rest,
     log (buildPCH fe params)
     = CallComputePreamble (content params) defaultLangOptions 0 fresh
         :: CallCreateTarget session ok :: rest) ∧
  ((∃ tail, content params = fed +:+ tail) ∧
   String.length fed
   = Nat.min (N.to_nat (Size fresh)) (String.length (content params))) ∧
  (∀ pch' bounds' pcms',
     buildPCH fe
       (mkCompliationParams (content params) (path params) (outpath params)
          (mainpath params) (args params) pch' bounds' pcms')
     = buildPCH fe params).
Proof.
  intros fresh fed configured.
  assert (mainpath params = path params →
          ∃ ok rest,
            log (buildPCH fe params)
            = CallComputePreamble (content params) defaultLangOptions 0 fresh
                :: CallCreateTarget (sessionPCH fe params) ok :: rest) as Hstart.
  { intros Hself.
    destruct (Build_reaches_executor fe pch_info _ _ _ _ _
                (preparatory_bounds _ _ _ _) (buildPCH_build fe params Hself))
      as (_ & _ & _ & ok & rest & Hlog).
    by exists ok, rest. }
  split; [|split; [|split]].
  - intros session ok Hin.
    destruct (decide (mainpath params = path params)) as [Hself|Hforeign].
    + apply (Build_one_session fe pch_info _ _ _ _ _
               (preparatory_bounds _ _ _ _) (buildPCH_build fe params Hself)) in Hin
        as ->.
      destruct (Hstart Hself) as (ok' & rest & ->).
      split; [apply list_elem_of_here|].
      subst fed fresh configured.
      unfold sessionPCH, freshBounds, getPreprocessorOpts, getHeaderSearchOpts,
        getFrontendOpts, getLangOpts. simpl.
      by destruct (fe_createInvocation fe (args params)) as [[] [] [] []].
    + rewrite buildPCH_foreign in Hin by done.
      apply list_elem_of_singleton in Hin. discriminate.
  - intros Hself. destruct (Hstart Hself) as (ok & rest & Hlog). by eexists _, _, _.
  - apply substr_0_prefix.
  - intros pch' bounds' pcms'. reflexivity.
Qed.

Lemma C7_preamble_generation_session_witness :
  ∃ session ok rest,
    log (buildPCH (Sample.frontend true true None) Inputs.warm)
    = CallComputePreamble (content Inputs.warm) defaultLangOptions 0
        (mkPreambleBounds 13 true)
        :: CallCreateTarget session ok :: rest ∧
    ImplicitPCHInclude (getPreprocessorOpts session) = "" ∧
    PrecompiledPreambleBytes (getPreprocessorOpts session) = (0%N, false) ∧
    OutputFile (getFrontendOpts session) = outpath Inputs.warm ∧
    RemappedFileBuffers (getPreprocessorOpts session)
    = [("main.cpp", "#include <a>" +:+ newline)].
Proof.
  destruct (C7_preamble_generation_session (Sample.frontend true true None)
              Inputs.warm) as (Hsession & Hstart & _ & _).
  destruct (Hstart eq_refl) as (session & ok & rest & Hlog).
  destruct (Hsession session ok)
    as (_ & (_ & Hpch & _ & _ & Hbytes) & (Hout & _) & Hfed).
  { rewrite Hlog. apply list_elem_of_further, list_elem_of_here. }
  exists session, ok, rest. split; [exact Hlog|].
  split; [exact Hpch|]. split; [exact Hbytes|]. split; [exact Hout|].
  rewrite Hfed. vm_compute. reflexivity.
Defined.

(** C8. Boundary detection in [buildPCH] is a function of the text alone:
    the detector is called on the unit's text with default language options
    and no line limit, never with anything taken from the command line or
    the other parameters.  So any two computations on identical text, in two
    builds or in the same build run twice, yield identical bounds, and an
    artifact a build returns carries the bounds computed in it. *)
Theorem C8_bounds_determined_by_text (fe : Frontend) (p1 p2 : CompliationParams)
    (buffer1 buffer2 : string) (opts1 opts2 : LangOptions) (maxLines1 maxLines2 : N)
    (bounds1 bounds2 : PreambleBounds) :
  content p1 = content p2 →
  CallComputePreamble buffer1 opts1 maxLines1 bounds1 ∈ log (buildPCH fe p1) →
  CallComputePreamble buffer2 opts2 maxLines2 bounds2 ∈ log (buildPCH fe p2) →
  bounds1 = bounds2 ∧
  (buffer1 = content p1 ∧ buffer2 = content p2) ∧
  (opts1 = defaultLangOptions ∧ opts2 = defaultLangOptions) ∧
  (maxLines1 = 0%N ∧ maxLines2 = 0%N) ∧
  (∀ info, outcome (buildPCH fe p1) = Returned (Success info) →
     pch_bounds info = bounds1) ∧
  (∀ info, outcome (buildPCH fe p2) = Returned (Success info) →
     pch_bounds info = bounds2).
Proof.
  intros Htext Hin1 Hin2.
  assert (mainpath p1 = path p1) as Hself1.
  { destruct (decide (mainpath p1 = path p1)) as [|Hforeign]; [done|].
    rewrite buildPCH_foreign in Hin1 by done.
    apply list_elem_of_singleton in Hin1. discriminate. }
  assert (mainpath p2 = path p2) as Hself2.
  { destruct (decide (mainpath p2 = path p2)) as [|Hforeign]; [done|].
    rewrite buildPCH_foreign in Hin2 by done.
    apply list_elem_of_singleton in Hin2. discriminate. }
  apply buildPCH_computation in Hin1 as (-> & -> & -> & ->).
  apply buildPCH_computation in Hin2 as (-> & -> & -> & ->).
  split; [by rewrite Htext|]. repeat split.
  - intros info. by apply buildPCH_bounds.
  - intros info. by apply buildPCH_bounds.
Qed.

(** Two units with the same text but different output paths and reuse
    parameters: both preambles end after the first line, at byte 13. *)
Lemma C8_bounds_determined_by_text_witness :
  ∃ b1 b2,
    CallComputePreamble (content Sample.unit1) defaultLangOptions 0 b1
      ∈ log (buildPCH (Sample.frontend true true None) Sample.unit1) ∧
    CallComputePreamble (content Inputs.warm) defaultLangOptions 0 b2
      ∈ log (buildPCH (Sample.frontend true true None) Inputs.warm) ∧
    b1 = b2 ∧ Size b1 = 13%N.
Proof.
  assert (CallComputePreamble (content Sample.unit1) defaultLangOptions 0
            (mkPreambleBounds 13 true)
            ∈ log (buildPCH (Sample.frontend true true None) Sample.unit1)) as H1.
  { evaluate (buildPCH (Sample.frontend true true None) Sample.unit1).
    apply list_elem_of_here. }
  assert (CallComputePreamble (content Inputs.warm) defaultLangOptions 0
            (mkPreambleBounds 13 true)
            ∈ log (buildPCH (Sample.frontend true true None) Inputs.warm)) as H2.
  { evaluate (buildPCH (Sample.frontend true true None) Inputs.warm).
    apply list_elem_of_here. }
  destruct (C8_bounds_determined_by_text (Sample.frontend true true None)
              Sample.unit1 Inputs.warm _ _ _ _ _ _ _ _ eq_refl H1 H2)
    as (Hsame & _).
  exists (mkPreambleBounds 13 true), (mkPreambleBounds 13 true).
  split; [exact H1|]. split; [exact H2|]. split; [exact Hsame|reflexivity].
Defined.

(** * Further properties of the pipeline *)

(** ** The reuse binder in closed form *)

Lemma foldl_registerModule_closed (l : list (string * string))
    (instance : CompilerInstance) :
  foldl registerModule instance l
  = mkCompilerInstance
      (mkCompilerInvocation (getFrontendOpts instance) (getLangOpts instance)
         (getPreprocessorOpts instance)
         (mkHeaderSearchOptions
            (PrebuiltModuleFiles (getHeaderSearchOpts instance) ∪ list_to_map l)))
      (Diagnostics instance) (CompletionConsumer instance) (Target instance)
      (PP instance).
Proof.
  revert instance. induction l as [|[name path] l IH]; intros instance.
  - destruct instance as [[? ? ? []] ? ? ? ?]. simpl.
    by rewrite (right_id_L ∅ (∪)).
  - simpl. rewrite IH. destruct instance as [[? ? ? [files]] ? ? ? ?]. simpl.
    do 3 f_equal. rewrite try_emplace_union, <- (assoc_L (∪)).
    by rewrite <- insert_union_singleton_l.
Qed.

Lemma applyPreamble_closed (instance : CompilerInstance) (params : CompliationParams) :
  applyPreamble instance params
  = mkCompilerInstance
      (mkCompilerInvocation (getFrontendOpts instance) (getLangOpts instance)
         (reusedPreprocessorOpts params (getPreprocessorOpts instance))
         (mkHeaderSearchOptions
            (PrebuiltModuleFiles (getHeaderSearchOpts instance)
               ∪ list_to_map (pcms params))))
      (Diagnostics instance) (CompletionConsumer instance) (Target instance)
      (PP instance).
Proof.
  unfold applyPreamble.
  etransitivity; [exact (foldl_registerModule_closed (pcms params) _)|].
  unfold reusedPreprocessorOpts.
  destruct (negb _); by destruct instance as [[? ? ? []] ? ? ? ?].
Qed.


(** X9. When the supplied module names are pairwise distinct, the order in
    which the pairs are supplied does not matter: any rearrangement of the
    pairs leaves the same session. *)
Theorem X9_applyPreamble_order_irrelevant (instance : CompilerInstance)
    (params : CompliationParams) (rearranged : list (string * string)) :
  NoDup (pcms params).*1 →
  pcms params ≡ₚ rearranged →
  applyPreamble instance (withPcms params rearranged)
  = applyPreamble instance params.
Proof.
  intros Hnodup Hperm. rewrite !applyPreamble_closed. simpl.
  do 4 f_equal. symmetry. by apply list_to_map_proper.
Qed.

Lemma X9_applyPreamble_order_irrelevant_witness :
  applyPreamble Inputs.sessionWithM
    (withPcms Inputs.coldWithModules [("N", "/new/N.pcm"); ("M", "/new/M.pcm")])
  = applyPreamble Inputs.sessionWithM Inputs.coldWithModules.
Proof.
  apply (X9_applyPreamble_order_irrelevant Inputs.sessionWithM Inputs.coldWithModules).
  - simpl. apply NoDup_cons. split.
    + intros Hin. apply list_elem_of_singleton in Hin. discriminate.
    + apply NoDup_singleton.
  - simpl. apply Permutation_swap.
Defined.

(** ** The steps of a run *)

Lemma steps_app (l1 l2 : list Event) : steps (l1 ++ l2) = (steps l1 ++ steps l2)%list.
Proof. apply fmap_app. Qed.

Lemma lifts_ending {A} (ast : A → ASTInfo) (o : Outcome (Expected ASTInfo))
    (o' : Outcome (Expected A)) :
  lifts ast o o' → endingOf o' = endingOf o.
Proof.
  destruct o as [[i|e]| |]; simpl; [intros (a & -> & _)|intros ->..]; done.
Qed.

Ltac in_runs :=
  unfold executorRuns; simpl;
  repeat first [apply list_elem_of_here | apply list_elem_of_further].

Lemma Run_protocol (fe : Frontend) inst act collectPP (r : M (Expected ASTInfo)) :
  Run fe inst act collectPP r →
  (endingOf (outcome r), steps (log r)) ∈ executorRuns collectPP.
Proof.
  intros Hrun.
  destruct Hrun;
    repeat match goal with
           | H : attachment ?c ?i = _ |- _ =>
               unfold attachment in H;
               destruct c; [destruct (PP i) eqn:?|]; simplify_eq/=
           end;
    unfold outcome, log; simpl; try (destruct collectPP); in_runs.
Qed.

Lemma Build_protocol (fe : Frontend) {A} (ast : A → ASTInfo) pre inst act collectPP
    (m : M (Expected A)) :
  Build fe ast pre inst act collectPP m →
  ∃ ending taken,
    (ending, taken) ∈ executorRuns collectPP ∧
    endingOf (outcome m) = ending ∧
    steps (log m) = (steps pre ++ taken)%list.
Proof.
  intros [r Hrun Hlog Hlift].
  exists (endingOf (outcome r)), (steps (log r)).
  split; [by eapply Run_protocol|]. split; [by eapply lifts_ending|].
  by rewrite Hlog, steps_app.
Qed.

(** X1. The executor follows one protocol.  On a kind other than the three
    supported ones it writes its message and terminates the process before
    any call into the frontend.  Otherwise it creates the target, begins the
    source file only if the target was created, attaches the collector (when
    asked) and executes only if the file was begun, each at most once, and it
    ends as the last step tells: a failure with that step's message, an
    artifact after a successful execution, or undefined behaviour when the
    session has no input file or, with collection, no preprocessor.  The
    entry points run this protocol with collection ([buildAST], [buildPCM])
    or without ([codeCompleteAt]); [buildPCH] computes the bounds first. *)
Theorem X1_executor_protocol (fe : Frontend) (inst : CompilerInstance)
    (kind : ActionKind) (collectPP : bool) (params : CompliationParams)
    (line column : N) (file : string) (consumer : CodeCompleteConsumer) :
  (kind = ParseSyntaxOnly ∨ kind = GeneratePCH ∨
   kind = GenerateReducedModuleInterface →
   (endingOf (outcome (ExecuteAction fe inst kind collectPP)),
    steps (log (ExecuteAction fe inst kind collectPP))) ∈ executorRuns collectPP) ∧
  (kind ≠ ParseSyntaxOnly → kind ≠ GeneratePCH →
   kind ≠ GenerateReducedModuleInterface →
   outcome (ExecuteAction fe inst kind collectPP) = Terminated ∧
   log (ExecuteAction fe inst kind collectPP)
   = [WriteErrs unsupportedMessage; CallTerminate]) ∧
  (endingOf (outcome (buildAST fe params)), steps (log (buildAST fe params)))
    ∈ executorRuns true ∧
  (endingOf (outcome (buildPCM fe params)), steps (log (buildPCM fe params)))
    ∈ executorRuns true ∧
  (endingOf (outcome (codeCompleteAt fe params line column file consumer)),
   steps (log (codeCompleteAt fe params line column file consumer)))
    ∈ executorRuns false ∧
  (mainpath params = path params →
   ∃ taken,
     (endingOf (outcome (buildPCH fe params)), taken) ∈ executorRuns true ∧
     steps (log (buildPCH fe params)) = StepBounds :: taken).
Proof.
  split; [|split; [|split; [|split; [|split]]]].
  - intros Hkind.
    assert (∃ act, actionFor kind = Some act) as [act Hact].
    { destruct Hkind as [->|[->| ->]]; by eexists. }
    apply (Run_protocol fe inst act). by apply ExecuteAction_supported.
  - intros H1 H2 H3.
    rewrite ExecuteAction_unsupported; [done|]. by destruct kind.
  - destruct (Build_protocol fe id _ _ _ _ _ (buildAST_build fe params))
      as (ending & taken & Hin & <- & Hsteps).
    by rewrite Hsteps.
  - destruct (buildPCM_build fe params) as [session Hbuild].
    destruct (Build_protocol fe pcm_info _ _ _ _ _ Hbuild)
      as (ending & taken & Hin & <- & Hsteps).
    by rewrite Hsteps.
  - destruct (codeCompleteAt_build fe params line column file consumer)
      as [session Hbuild].
    destruct (Build_protocol fe id _ _ _ _ _ Hbuild)
      as (ending & taken & Hin & <- & Hsteps).
    by rewrite Hsteps.
  - intros Hself.
    destruct (Build_protocol fe pch_info _ _ _ _ _ (buildPCH_build fe params Hself))
      as (ending & taken & Hin & <- & Hsteps).
    exists taken. split; [done|]. by rewrite Hsteps.
Qed.

Lemma X1_executor_protocol_witness :
  outcome (ExecuteAction (Sample.frontend true true None) newCompilerInstance
             ASTDump true) = Terminated ∧
  (endingOf (outcome (ExecuteAction (Sample.frontend true true None)
                        newCompilerInstance GeneratePCH true)),
   steps (log (ExecuteAction (Sample.frontend true true None)
                 newCompilerInstance GeneratePCH true)))
    ∈ executorRuns true ∧
  (∃ taken,
     steps (log (buildPCH (Sample.frontend true true None) Sample.unit1))
     = StepBounds :: taken).
Proof.
  destruct (X1_executor_protocol (Sample.frontend true true None)
              newCompilerInstance ASTDump true Sample.unit1 1 1 "main.cpp" 7)
    as (_ & Habort & _ & _ & _ & Hpch).
  destruct (X1_executor_protocol (Sample.frontend true true None)
              newCompilerInstance GeneratePCH true Sample.unit1 1 1 "main.cpp" 7)
    as (Hrun & _).
  split; [|split].
  - by destruct Habort as [Hout _].
  - apply Hrun. right. by left.
  - destruct (Hpch eq_refl) as (taken & _ & Hsteps). by exists taken.
Defined.

(** ** The sessions the entry points hand to the frontend *)

Section SessionsHandedOver.

Context (fe : Frontend).

Lemma buildPCM_session params :
  Build fe pcm_info [] (sessionPCM fe params) GenerateReducedModuleInterfaceAction
    true (buildPCM fe params).
Proof.
  eapply (BuildOf fe _ _ _ _ _ _
            (ExecuteAction fe (sessionPCM fe params) GenerateReducedModuleInterface
               true)).
  - by apply ExecuteAction_supported.
  - unfold buildPCM. by rewrite wrap_log.
  - unfold buildPCM. by apply wrap_outcome.
Qed.

Lemma codeCompleteAt_unfold params line column file consumer :
  codeCompleteAt fe params line column file consumer
  = ExecuteAction fe (sessionComplete fe params line column file consumer)
      ParseSyntaxOnly false.
Proof.
  unfold codeCompleteAt, sessionComplete, createInstance.
  by destruct (fe_createInvocation fe (args params)) as [[? ? ? []] ? ? ?].
Qed.

Lemma codeCompleteAt_session params line column file consumer :
  Build fe id [] (sessionComplete fe params line column file consumer)
    SyntaxOnlyAction false (codeCompleteAt fe params line column file consumer).
Proof.
  rewrite codeCompleteAt_unfold.
  eapply (BuildOf fe _ _ _ _ _ _ (ExecuteAction fe _ ParseSyntaxOnly false)).
  - by apply ExecuteAction_supported.
  - reflexivity.
  - apply lifts_id.
Qed.

(** The sessions handed to [createTarget] by each entry point. *)
Lemma handed_AST params session ok :
  CallCreateTarget session ok ∈ log (buildAST fe params) →
  session = sessionAST fe params.
Proof.
  apply (Build_one_session fe id [] _ _ _ _ preparatory_nil (buildAST_build fe params)).
Qed.

Lemma handed_PCM params session ok :
  CallCreateTarget session ok ∈ log (buildPCM fe params) →
  session = sessionPCM fe params.
Proof.
  apply (Build_one_session fe pcm_info [] _ _ _ _ preparatory_nil
           (buildPCM_session params)).
Qed.

Lemma handed_Complete params line column file consumer session ok :
  CallCreateTarget session ok ∈ log (codeCompleteAt fe params line column file consumer) →
  session = sessionComplete fe params line column file consumer.
Proof.
  apply (Build_one_session fe id [] _ _ _ _ preparatory_nil
           (codeCompleteAt_session params line column file consumer)).
Qed.

Lemma handed_PCH params session ok :
  CallCreateTarget session ok ∈ log (buildPCH fe params) →
  session = sessionPCH fe params.
Proof.
  intros Hin. destruct (decide (mainpath params = path params)) as [Hself|Hforeign].
  - by apply (Build_one_session fe pch_info _ _ _ _ _
                (preparatory_bounds _ _ _ _) (buildPCH_build fe params Hself)) in Hin.
  - rewrite buildPCH_foreign in Hin by done.
    apply list_elem_of_singleton in Hin. discriminate.
Qed.

Lemma createInstance_hasPolicy args : hasPolicy (createInstance fe args).
Proof.
  unfold hasPolicy, createInstance, getFrontendOpts, getLangOpts. simpl.
  by destruct (fe_createInvocation fe args) as [[] [] ? ?].
Qed.

Lemma sessionAST_hasPolicy params : hasPolicy (sessionAST fe params).
Proof.
  unfold sessionAST. rewrite applyPreamble_closed.
  unfold hasPolicy, createInstance, getFrontendOpts, getLangOpts. simpl.
  by destruct (fe_createInvocation fe (args params)) as [[] [] ? ?].
Qed.

Lemma sessionPCM_hasPolicy params : hasPolicy (sessionPCM fe params).
Proof.
  unfold sessionPCM. rewrite applyPreamble_closed.
  unfold hasPolicy, createInstance, getFrontendOpts, getLangOpts. simpl.
  by destruct (fe_createInvocation fe (args params)) as [[] [] ? ?].
Qed.

Lemma sessionComplete_hasPolicy params line column file consumer :
  hasPolicy (sessionComplete fe params line column file consumer).
Proof.
  unfold sessionComplete. rewrite applyPreamble_closed.
  unfold hasPolicy, createInstance, getFrontendOpts, getLangOpts. simpl.
  by destruct (fe_createInvocation fe (args params)) as [[] [] ? ?].
Qed.

Lemma sessionPCH_hasPolicy params : hasPolicy (sessionPCH fe params).
Proof.
  unfold sessionPCH, hasPolicy, createInstance, getFrontendOpts, getLangOpts. simpl.
  by destruct (fe_createInvocation fe (args params)) as [[] [] ? ?].
Qed.

End SessionsHandedOver.

(** X2. The fixed policy survives the rest of the setup: whichever entry
    point runs and whatever the parameters, the session on which the
    frontend is started has [DisableFree] off, all comments parsed and kept,
    those of system headers included, and the diagnostics engine that prints
    to [llvm::outs()] and owns its client. *)
Theorem X2_policy_reaches_frontend (fe : Frontend) (params : CompliationParams)
    (line column : N) (file : string) (consumer : CodeCompleteConsumer)
    (session : CompilerInstance) (ok : bool) :
  CallCreateTarget session ok ∈ log (buildAST fe params) ∨
  CallCreateTarget session ok ∈ log (buildPCH fe params) ∨
  CallCreateTarget session ok ∈ log (buildPCM fe params) ∨
  CallCreateTarget session ok
    ∈ log (codeCompleteAt fe params line column file consumer) →
  hasPolicy session.
Proof.
  intros [Hin|[Hin|[Hin|Hin]]].
  - apply handed_AST in Hin as ->. apply sessionAST_hasPolicy.
  - apply handed_PCH in Hin as ->. apply sessionPCH_hasPolicy.
  - apply handed_PCM in Hin as ->. apply sessionPCM_hasPolicy.
  - apply handed_Complete in Hin as ->. apply sessionComplete_hasPolicy.
Qed.

Lemma X2_policy_reaches_frontend_witness :
  ∃ session ok,
    CallCreateTarget session ok
      ∈ log (buildPCM (Sample.frontend true true None) Sample.unit1) ∧
    hasPolicy session.
Proof.
  assert (∃ session ok,
            CallCreateTarget session ok
              ∈ log (buildPCM (Sample.frontend true true None) Sample.unit1))
    as (session & ok & Hin).
  { evaluate (buildPCM (Sample.frontend true true None) Sample.unit1).
    eexists _, _. apply list_elem_of_here. }
  exists session, ok. split; [exact Hin|].
  apply (X2_policy_reaches_frontend (Sample.frontend true true None) Sample.unit1
           1 1 "main.cpp" 7 session ok).
  right. right. left. exact Hin.
Defined.

(** X3. Tree builds, module-interface builds and completion builds all
    prepare the preprocessor the same way before the frontend starts: the
    unit's whole text is remapped over its path, after the remappings of the
    command line, then the reuse parameters are applied to the result, and
    the prebuilt module files are those of the command line extended by the
    supplied pairs. *)
Theorem X3_reuse_applied_before_frontend (fe : Frontend) (params : CompliationParams)
    (line column : N) (file : string) (consumer : CodeCompleteConsumer)
    (session : CompilerInstance) (ok : bool) :
  CallCreateTarget session ok ∈ log (buildAST fe params) ∨
  CallCreateTarget session ok ∈ log (buildPCM fe params) ∨
  CallCreateTarget session ok
    ∈ log (codeCompleteAt fe params line column file consumer) →
  let configured := fe_createInvocation fe (args params) in
  getPreprocessorOpts session
  = reusedPreprocessorOpts params
      (addRemappedFile (path params) (content params) (PreprocessorOpts configured)) ∧
  RemappedFileBuffers (getPreprocessorOpts session)
  = (RemappedFileBuffers (PreprocessorOpts configured)
       ++ [(path params, content params)])%list ∧
  PrebuiltModuleFiles (getHeaderSearchOpts session)
  = PrebuiltModuleFiles (HeaderSearchOpts configured) ∪ list_to_map (pcms params).
Proof.
  intros Hin configured. subst configured.
  assert (session = sessionAST fe params ∨ session = sessionPCM fe params ∨
          session = sessionComplete fe params line column file consumer)
    as Hsession.
  { destruct Hin as [Hin|[Hin|Hin]].
    - left. by eapply handed_AST.
    - right. left. by eapply handed_PCM.
    - right. right. by eapply handed_Complete. }
  destruct Hsession as [->|[->| ->]];
    unfold sessionAST, sessionPCM, sessionComplete;
    rewrite applyPreamble_closed;
    unfold createInstance, getPreprocessorOpts, getHeaderSearchOpts,
      reusedPreprocessorOpts; simpl;
    destruct (fe_createInvocation fe (args params)) as [[] [] [] []]; simpl;
    by destruct (negb _).
Qed.

Lemma X3_reuse_applied_before_frontend_witness :
  ∃ session ok,
    CallCreateTarget session ok
      ∈ log (buildAST (Sample.frontend true true None) Inputs.warm) ∧
    PrecompiledPreambleBytes (getPreprocessorOpts session) = (13%N, true) ∧
    ImplicitPCHInclude (getPreprocessorOpts session) = "main.pch" ∧
    RemappedFileBuffers (getPreprocessorOpts session)
    = [("main.cpp", content Inputs.warm)].
Proof.
  assert (∃ session ok,
            CallCreateTarget session ok
              ∈ log (buildAST (Sample.frontend true true None) Inputs.warm))
    as (session & ok & Hin).
  { evaluate (buildAST (Sample.frontend true true None) Inputs.warm).
    eexists _, _. apply list_elem_of_here. }
  exists session, ok. split; [exact Hin|].
  destruct (X3_reuse_applied_before_frontend (Sample.frontend true true None)
              Inputs.warm 1 1 "main.cpp" 7 session ok (or_introl Hin))
    as (Hpp & Hremap & _).
  rewrite Hpp. split; [reflexivity|]. split; reflexivity.
Defined.

(** X4. A build without preamble to reuse ignores the rest of the preamble
    parameters: when [bounds.Size] is zero, neither [pch] nor
    [PreambleEndsAtStartOfLine] has any influence on a tree build, a
    module-interface build or a completion build. *)
Theorem X4_cold_build_ignores_preamble (fe : Frontend) (params : CompliationParams)
    (line column : N) (file : string) (consumer : CodeCompleteConsumer)
    (pch' : string) (bounds' : PreambleBounds) :
  Size (bounds params) = 0%N →
  Size bounds' = 0%N →
  buildAST fe (withPreamble params pch' bounds') = buildAST fe params ∧
  buildPCM fe (withPreamble params pch' bounds') = buildPCM fe params ∧
  codeCompleteAt fe (withPreamble params pch' bounds') line column file consumer
  = codeCompleteAt fe params line column file consumer.
Proof.
  intros Hcold Hcold'.
  assert (∀ instance,
            applyPreamble instance (withPreamble params pch' bounds')
            = applyPreamble instance params) as Hsame.
  { intros instance. rewrite !applyPreamble_closed.
    unfold reusedPreprocessorOpts. simpl. by rewrite Hcold, Hcold'. }
  unfold buildAST, buildPCM, codeCompleteAt. by rewrite !Hsame.
Qed.

Lemma X4_cold_build_ignores_preamble_witness :
  buildAST (Sample.frontend true true None)
    (withPreamble Sample.unit1 "stale.pch" (mkPreambleBounds 0 true))
  = buildAST (Sample.frontend true true None) Sample.unit1.
Proof.
  apply (X4_cold_build_ignores_preamble (Sample.frontend true true None)
           Sample.unit1 1 1 "main.cpp" 7 "stale.pch" (mkPreambleBounds 0 true));
    reflexivity.
Defined.

(** X5. A completion build starts the frontend on the session of the tree
    build of the same parameters, changed in two places only: the code
    completion point is [file], [line], [column], and the completion consumer
    is installed.  It never attaches a token collector. *)
Theorem X5_completion_session (fe : Frontend) (params : CompliationParams)
    (line column : N) (file : string) (consumer : CodeCompleteConsumer) :
  (∀ session ok,
     CallCreateTarget session ok
       ∈ log (codeCompleteAt fe params line column file consumer) →
     session
     = setCodeCompletionConsumer consumer
         (onInvocation
            (withFrontendOpts
               (set_CodeCompletionAt (mkParsedSourceLocation file line column)))
            (sessionAST fe params))) ∧
  (∀ pp, CallTokenCollector pp
           ∉ log (codeCompleteAt fe params line column file consumer)).
Proof.
  split.
  - intros session ok Hin. apply handed_Complete in Hin as ->.
    unfold sessionComplete, sessionAST. rewrite !applyPreamble_closed.
    unfold createInstance. simpl.
    by destruct (fe_createInvocation fe (args params)) as [[] [] [] []].
  - intros pp Hin.
    destruct (Build_protocol fe id _ _ _ _ _
                (codeCompleteAt_session fe params line column file consumer))
      as (ending & taken & Hruns & _ & Hsteps).
    assert (StepAttach ∈ taken) as Hattach.
    { change (steps [] ++ taken)%list with taken in Hsteps. rewrite <- Hsteps.
      apply list_elem_of_fmap. by exists (CallTokenCollector pp). }
    unfold executorRuns in Hruns. simpl in Hruns.
    repeat (apply elem_of_cons in Hruns as [Hruns|Hruns];
            [simplify_eq;
             repeat (apply elem_of_cons in Hattach as [Hattach|Hattach];
                     [discriminate|]);
             by apply elem_of_nil in Hattach|]).
    by apply elem_of_nil in Hruns.
Qed.

Lemma X5_completion_session_witness :
  ∃ session ok,
    CallCreateTarget session ok
      ∈ log (codeCompleteAt (Sample.frontend true true None) Sample.unit1 3 5
               "main.cpp" 7) ∧
    CodeCompletionAt (getFrontendOpts session)
    = mkParsedSourceLocation "main.cpp" 3 5 ∧
    CompletionConsumer session = Some 7%nat.
Proof.
  assert (∃ session ok,
            CallCreateTarget session ok
              ∈ log (codeCompleteAt (Sample.frontend true true None) Sample.unit1
                       3 5 "main.cpp" 7))
    as (session & ok & Hin).
  { evaluate (codeCompleteAt (Sample.frontend true true None) Sample.unit1 3 5
                "main.cpp" 7).
    eexists _, _. apply list_elem_of_here. }
  exists session, ok. split; [exact Hin|].
  destruct (X5_completion_session (Sample.frontend true true None) Sample.unit1
              3 5 "main.cpp" 7) as (Hsession & _).
  rewrite (Hsession session ok Hin). split; reflexivity.
Defined.

(** ** What a returned artifact holds *)

Lemma Build_artifact (fe : Frontend) {A} (ast : A → ASTInfo) pre inst act collectPP
    (m : M (Expected A)) (artifact : A) :
  Build fe ast pre inst act collectPP m →
  outcome m = Returned (Success artifact) →
  action (ast artifact) = act ∧
  ∃ session,
    CallExecute act session None ∈ log m ∧
    instance (ast artifact) = (fe_Execute fe act session).1.2.
Proof.
  intros [r Hrun Hlog Hlift] Hsuccess. rewrite Hlog.
  destruct Hrun; unfold log, outcome in *; simpl in *;
    try (destruct Hlift as (made & Hmade & Hast)); try congruence.
  assert (made = artifact) as -> by congruence.
  rewrite Hast. simpl. split; [done|]. exists i2. split.
  - repeat first [ apply elem_of_app; right | by apply elem_of_cons; left
                 | apply elem_of_cons; right ].
  - match goal with H : fe_Execute _ _ _ = _ |- _ => by rewrite H end.
Qed.

Lemma wrap_made {A B} (f : A → B) (m : M (Expected A)) (b : B) :
  outcome (info ← m;
           match info with
           | Success info => mret (Success (f info))
           | Failure e => mret (Failure e)
           end) = Returned (Success b) →
  ∃ a, outcome m = Returned (Success a) ∧ b = f a.
Proof.
  destruct m as [[[a|e]| |] l]; unfold outcome, mbind, M_bind, mret, M_ret; simpl;
    intros Hb; simplify_eq. by exists a.
Qed.

(** X6. An artifact owns the action of its build and the session exactly as
    the frontend left it when the execution ended: a syntax-only action for
    tree and completion builds, a PCH generation action for preamble builds,
    a reduced module interface action for module builds.  The path recorded
    in a preamble or module artifact is the output path of the parameters,
    the one the session was told to write to. *)
Theorem X6_artifact_owns_action_and_session (fe : Frontend)
    (params : CompliationParams) (line column : N) (file : string)
    (consumer : CodeCompleteConsumer) :
  (∀ info, outcome (buildAST fe params) = Returned (Success info) →
     action info = SyntaxOnlyAction ∧
     ∃ session,
       CallExecute SyntaxOnlyAction session None ∈ log (buildAST fe params) ∧
       instance info = (fe_Execute fe SyntaxOnlyAction session).1.2) ∧
  (∀ info,
     outcome (codeCompleteAt fe params line column file consumer)
     = Returned (Success info) →
     action info = SyntaxOnlyAction ∧
     ∃ session,
       CallExecute SyntaxOnlyAction session None
         ∈ log (codeCompleteAt fe params line column file consumer) ∧
       instance info = (fe_Execute fe SyntaxOnlyAction session).1.2) ∧
  (∀ info, outcome (buildPCH fe params) = Returned (Success info) →
     action (pch_info info) = GeneratePCHAction ∧
     pch_path info = outpath params ∧
     pch_path info = OutputFile (getFrontendOpts (sessionPCH fe params)) ∧
     ∃ session,
       CallExecute GeneratePCHAction session None ∈ log (buildPCH fe params) ∧
       instance (pch_info info) = (fe_Execute fe GeneratePCHAction session).1.2) ∧
  (∀ info, outcome (buildPCM fe params) = Returned (Success info) →
     action (pcm_info info) = GenerateReducedModuleInterfaceAction ∧
     pcm_path info = outpath params ∧
     pcm_path info = OutputFile (getFrontendOpts (sessionPCM fe params)) ∧
     ∃ session,
       CallExecute GenerateReducedModuleInterfaceAction session None
         ∈ log (buildPCM fe params) ∧
       instance (pcm_info info)
       = (fe_Execute fe GenerateReducedModuleInterfaceAction session).1.2).
Proof.
  split; [|split; [|split]]; intros info Hsuccess.
  - apply (Build_artifact fe id _ _ _ _ _ info (buildAST_build fe params) Hsuccess).
  - apply (Build_artifact fe id _ _ _ _ _ info
             (codeCompleteAt_session fe params line column file consumer) Hsuccess).
  - destruct (decide (mainpath params = path params)) as [Hself|Hforeign];
      [|rewrite buildPCH_foreign in Hsuccess by done; discriminate].
    destruct (Build_artifact fe pch_info _ _ _ _ _ info
                (buildPCH_build fe params Hself) Hsuccess) as (Hact & Hsession).
    split; [done|].
    rewrite buildPCH_unfold in Hsuccess by done. rewrite emit_outcome in Hsuccess.
    apply (wrap_made (λ info, mkPCHInfo info _ _ _ _)) in Hsuccess as (a & _ & ->).
    simpl. split; [done|]. split; [|done].
    unfold sessionPCH, createInstance, getFrontendOpts. simpl.
    by destruct (fe_createInvocation fe (args params)) as [[] [] [] []].
  - destruct (Build_artifact fe pcm_info _ _ _ _ _ info
                (buildPCM_session fe params) Hsuccess) as (Hact & Hsession).
    split; [done|].
    unfold buildPCM in Hsuccess.
    apply (wrap_made (λ info, mkPCMInfo info _)) in Hsuccess as (a & _ & ->).
    simpl. split; [done|]. split; [|done].
    unfold sessionPCM. rewrite applyPreamble_closed.
    unfold createInstance, getFrontendOpts. simpl.
    by destruct (fe_createInvocation fe (args params)) as [[] [] [] []].
Qed.

Lemma X6_artifact_owns_action_and_session_witness :
  ∃ info,
    outcome (buildPCM (Sample.frontend true true None) Sample.unit1)
    = Returned (Success info) ∧
    action (pcm_info info) = GenerateReducedModuleInterfaceAction ∧
    pcm_path info = "main.pch".
Proof.
  destruct (X6_artifact_owns_action_and_session (Sample.frontend true true None)
              Sample.unit1 1 1 "main.cpp" 7) as (_ & _ & _ & Hpcm).
  revert Hpcm.
  evaluate (buildPCM (Sample.frontend true true None) Sample.unit1).
  intros Hpcm. eexists. split; [reflexivity|].
  destruct (Hpcm _ eq_refl) as (Hact & Hpath & _).
  exact (conj Hact Hpath).
Defined.

(** X7. A session without input file is not reported: when the target has
    been created and [Inputs] is empty, the executor reads [Inputs[0]] past
    the end.  No failure is returned and the action is never begun. *)
Theorem X7_no_input_file (fe : Frontend) (inst created : CompilerInstance)
    (kind : ActionKind) (collectPP : bool) :
  kind = ParseSyntaxOnly ∨ kind = GeneratePCH ∨
  kind = GenerateReducedModuleInterface →
  fe_createTarget fe inst = (true, created) →
  Inputs (getFrontendOpts created) = [] →
  outcome (ExecuteAction fe inst kind collectPP) = Undefined ∧
  log (ExecuteAction fe inst kind collectPP) = [CallCreateTarget inst true].
Proof.
  intros Hkind Htarget Hinputs.
  assert (∃ act, actionFor kind = Some act) as [act Hact].
  { destruct Hkind as [->|[->| ->]]; by eexists. }
  destruct (ExecuteAction_supported fe inst kind act collectPP Hact)
    as [i1 H|i1 H Hin|i1 input i2 H Hin Hb|i1 input i2 H Hin Hb Ha
       |i1 input i2 listen e i3 lexed H Hin Hb Ha He
       |i1 input i2 listen i3 lexed H Hin Hb Ha He];
    rewrite Htarget in H; simplify_eq; try done;
    by rewrite Hinputs in Hin.
Qed.

Lemma X7_no_input_file_witness :
  outcome (buildAST (Sample.frontend true true None)
             (mkCompliationParams "int x;" "main.cpp" "" "main.cpp" [] ""
                (mkPreambleBounds 0 false) []))
  = Undefined.
Proof.
  set (params := mkCompliationParams "int x;" "main.cpp" "" "main.cpp" [] ""
                   (mkPreambleBounds 0 false) []).
  destruct (X7_no_input_file (Sample.frontend true true None)
              (sessionAST (Sample.frontend true true None) params)
              (fe_createTarget (Sample.frontend true true None)
                 (sessionAST (Sample.frontend true true None) params)).2
              ParseSyntaxOnly true) as [Hout _].
  - by left.
  - reflexivity.
  - reflexivity.
  - exact Hout.
Defined.

(** * Properties of the inlay hint feature *)

(** ** Texts as lists of characters *)

Lemma chars_of_chars (l : list Ascii.ascii) :
  InlayHints.chars (InlayHints.of_chars l) = l.
Proof. apply String.list_ascii_of_string_of_list_ascii. Qed.

Lemma of_chars_chars (s : string) : InlayHints.of_chars (InlayHints.chars s) = s.
Proof. apply String.string_of_list_ascii_of_string. Qed.

Lemma length_chars (s : string) : length (InlayHints.chars s) = String.length s.
Proof. induction s as [|c s IH]; simpl; [done|]. by rewrite IH. Qed.

Lemma length_of_chars (l : list Ascii.ascii) :
  String.length (InlayHints.of_chars l) = length l.
Proof. by rewrite <- length_chars, chars_of_chars. Qed.

Lemma chars_app (s t : string) :
  InlayHints.chars (s +:+ t) = (InlayHints.chars s ++ InlayHints.chars t)%list.
Proof.
  induction s as [|c s IH]; [done|].
  change (InlayHints.chars (String c (s +:+ t))
          = c :: (InlayHints.chars s ++ InlayHints.chars t)%list).
  simpl. by rewrite <- IH.
Qed.

Lemma length_app_string (s t : string) :
  String.length (s +:+ t) = String.length s + String.length t.
Proof. by rewrite <- !length_chars, chars_app, length_app. Qed.

Lemma chars_inj (s t : string) : InlayHints.chars s = InlayHints.chars t → s = t.
Proof. intros H. by rewrite <- (of_chars_chars s), H, of_chars_chars. Qed.

Lemma size_t_sub_small (a b : N) :
  (b ≤ a)%N → (a < InlayHints.size_t_modulus)%N → InlayHints.size_t_sub a b = (a - b)%N.
Proof.
  intros Hle Hlt. unfold InlayHints.size_t_sub.
  replace (a + InlayHints.size_t_modulus - b)%N
    with (a - b + 1 * InlayHints.size_t_modulus)%N by lia.
  rewrite N.Div0.mod_add. apply N.mod_small. lia.
Qed.

Lemma size_t_sub_wraps (a b : N) :
  (a < b)%N → (b ≤ InlayHints.size_t_modulus)%N →
  InlayHints.size_t_sub a b = (InlayHints.size_t_modulus - (b - a))%N.
Proof.
  intros Hlt Hle. unfold InlayHints.size_t_sub.
  rewrite N.mod_small by lia. lia.
Qed.

Lemma shrinkHintText_bounded (max_size : N) (text : string) (maxLength : N) :
  (3 ≤ maxLength)%N →
  (N.of_nat (String.length text) ≤ max_size)%N →
  (max_size < 2 ^ 64)%N →
  ∃ shrunk,
    InlayHints.shrinkHintText max_size text maxLength = InlayHints.Value shrunk ∧
    (N.of_nat (String.length shrunk) ≤ maxLength)%N ∧
    ((N.of_nat (String.length text) ≤ maxLength)%N → shrunk = text) ∧
    ((maxLength < N.of_nat (String.length text))%N →
     shrunk
     = InlayHints.of_chars (take (N.to_nat maxLength - 3) (InlayHints.chars text))
         +:+ "..." ∧
     N.of_nat (String.length shrunk) = maxLength) ∧
    InlayHints.shrinkHintText max_size shrunk maxLength = InlayHints.Value shrunk.
Proof.
  intros Hthree Hsize Hmax.
  assert (∀ s, (N.of_nat (String.length s) ≤ maxLength)%N →
            InlayHints.shrinkHintText max_size s maxLength = InlayHints.Value s)
    as Hshort.
  { intros s Hs. unfold InlayHints.shrinkHintText.
    by rewrite (proj2 (N.ltb_ge _ _) Hs). }
  destruct (decide (N.of_nat (String.length text) ≤ maxLength)%N) as [Hfits|Hlong].
  - exists text. rewrite Hshort by done. repeat split; try done; lia.
  - assert (maxLength < N.of_nat (String.length text))%N as Hlt by lia.
    set (cut := InlayHints.of_chars
                  (take (N.to_nat maxLength - 3) (InlayHints.chars text))).
    assert (String.length cut = N.to_nat maxLength - 3) as Hcut.
    { unfold cut. rewrite length_of_chars, length_take, length_chars. lia. }
    assert (InlayHints.shrinkHintText max_size text maxLength
            = InlayHints.Value (cut +:+ "...")) as Hrun.
    { unfold InlayHints.shrinkHintText.
      rewrite (proj2 (N.ltb_lt _ _) Hlt).
      rewrite size_t_sub_small by (unfold InlayHints.size_t_modulus; lia).
      unfold InlayHints.resize.
      rewrite (proj2 (N.ltb_ge _ _)) by lia.
      replace (N.to_nat (maxLength - 3) - String.length text) with 0 by lia.
      rewrite N2Nat.inj_sub. change (N.to_nat 3) with 3.
      simpl replicate. rewrite app_nil_r. fold cut.
      unfold mbind, InlayHints.Raised_bind, InlayHints.append.
      rewrite Hcut. rewrite (proj2 (N.ltb_ge _ _)); [done|]. simpl. lia. }
    assert (N.of_nat (String.length (cut +:+ "...")) = maxLength) as Hlen.
    { rewrite length_app_string, Hcut. simpl. lia. }
    exists (cut +:+ "..."). rewrite Hrun. repeat split; try done; try lia.
    apply Hshort. lia.
Qed.

(** X10. With a limit of at least three characters, [shrinkHintText]
    returns a text that is never longer than the limit.  A text that fits is
    returned as it is; a longer one is cut to its first [maxLength - 3]
    characters followed by three dots and has exactly [maxLength]
    characters.  Shrinking the returned text again changes nothing. *)
Theorem X10_shrinkHintText_bounded (max_size : N) (text : string) (maxLength : N) :
  (3 ≤ maxLength)%N →
  (N.of_nat (String.length text) ≤ max_size)%N →
  (max_size < 2 ^ 64)%N →
  ∃ shrunk,
    InlayHints.shrinkHintText max_size text maxLength = InlayHints.Value shrunk ∧
    (N.of_nat (String.length shrunk) ≤ maxLength)%N ∧
    ((N.of_nat (String.length text) ≤ maxLength)%N → shrunk = text) ∧
    ((maxLength < N.of_nat (String.length text))%N →
     shrunk
     = InlayHints.of_chars (take (N.to_nat maxLength - 3) (InlayHints.chars text))
         +:+ "..." ∧
     N.of_nat (String.length shrunk) = maxLength) ∧
    InlayHints.shrinkHintText max_size shrunk maxLength = InlayHints.Value shrunk.
Proof. apply shrinkHintText_bounded. Qed.

Lemma X10_shrinkHintText_bounded_witness :
  InlayHints.shrinkHintText InlaySample.max_size "unsigned long long" 10
  = InlayHints.Value "unsigne...".
Proof.
  destruct (X10_shrinkHintText_bounded InlaySample.max_size "unsigned long long" 10)
    as (shrunk & Hrun & _ & _ & Hlong & _); [by vm_compute..|].
  rewrite Hrun. f_equal. by apply Hlong.
Defined.

(** X11. With a limit below three, [shrinkHintText] throws
    [std::length_error] on every text longer than the limit, a limit of zero
    included: [maxLength - 3] wraps around on [size_t], and [resize] refuses
    that length.  [tryShrinkHintText] throws the same way in a collection on
    the main file, and returns every text as it is in a collection for the
    index. *)
Theorem X11_shrinkHintText_short_limit (max_size : N) (text : string) (maxLength : N)
    (self : InlayHints.InlayHintCollector) :
  (max_size < 2 ^ 64 - 3)%N →
  ((maxLength < 3)%N → (maxLength < N.of_nat (String.length text))%N →
   InlayHints.shrinkHintText max_size text maxLength
   = InlayHints.Throws InlayHints.length_error) ∧
  (InlayHints.onlyMain self = true →
   (InlayHints.config.maxLength (InlayHints.options self) < 3)%N →
   (InlayHints.config.maxLength (InlayHints.options self)
    < N.of_nat (String.length text))%N →
   InlayHints.tryShrinkHintText max_size self text
   = InlayHints.Throws InlayHints.length_error) ∧
  (InlayHints.onlyMain self = false →
   InlayHints.tryShrinkHintText max_size self text = InlayHints.Value text).
Proof.
  intros Hmax.
  assert (∀ n, (n < 3)%N → (n < N.of_nat (String.length text))%N →
            InlayHints.shrinkHintText max_size text n
            = InlayHints.Throws InlayHints.length_error) as Hthrows.
  { intros n Hn Hlong. unfold InlayHints.shrinkHintText.
    rewrite (proj2 (N.ltb_lt _ _) Hlong).
    rewrite size_t_sub_wraps by (unfold InlayHints.size_t_modulus; lia).
    unfold InlayHints.resize, InlayHints.size_t_modulus.
    rewrite (proj2 (N.ltb_lt _ _)); [done|]. lia. }
  split; [apply Hthrows|]. split.
  - intros Hmain Hshort Hlong. unfold InlayHints.tryShrinkHintText.
    rewrite Hmain. by apply Hthrows.
  - intros Hindex. unfold InlayHints.tryShrinkHintText. by rewrite Hindex.
Qed.

Lemma X11_shrinkHintText_short_limit_witness :
  InlayHints.shrinkHintText InlaySample.max_size "abc" 0
  = InlayHints.Throws InlayHints.length_error ∧
  InlayHints.tryShrinkHintText InlaySample.max_size InlaySample.indexCollector "abc"
  = InlayHints.Value "abc".
Proof.
  destruct (X11_shrinkHintText_short_limit InlaySample.max_size "abc" 0
              InlaySample.indexCollector) as (Hthrows & _ & Hindex);
    [by vm_compute|].
  split; [by apply Hthrows|by apply Hindex].
Defined.

Lemma toLspHint_converted (max_size : N) hint maxLength docuri content SC :
  (3 ≤ maxLength)%N →
  (N.of_nat (String.length (InlayHints.value (InlayHints.lable hint))) ≤ max_size)%N →
  (max_size < 2 ^ 64)%N →
  InlayHints.toLspHint max_size hint maxLength docuri content SC
  = InlayHints.Value (converted max_size maxLength docuri content SC hint).
Proof.
  intros H3 Hsize Hmax.
  destruct (shrinkHintText_bounded max_size
              (InlayHints.value (InlayHints.lable hint)) maxLength H3 Hsize Hmax)
    as (shrunk & Hrun & _).
  unfold InlayHints.toLspHint, InlayHints.toLspLable, converted, shrunkTo.
  by rewrite Hrun.
Qed.

Lemma toLspLoop_with_option (max_size : N) result docuri c content SC acc :
  (3 ≤ InlayHints.config.maxLength c)%N →
  (max_size < 2 ^ 64)%N →
  Forall (λ hint,
            (N.of_nat (String.length (InlayHints.value (InlayHints.lable hint)))
             ≤ max_size)%N) result →
  InlayHints.toLspLoop max_size result docuri (Some c) content SC acc
  = InlayHints.Value
      (acc ++ (converted max_size (InlayHints.config.maxLength c) docuri content SC
                 <$> filter (λ hint,
                               InlayHints.isAvailableWithOption
                                 (InlayHints.kind hint) c = true) result))%list.
Proof.
  intros H3 Hmax Hsizes. revert acc.
  induction Hsizes as [|hint result Hsize Hsizes IH]; intros acc; simpl.
  - by rewrite app_nil_r.
  - rewrite filter_cons.
    destruct (InlayHints.isAvailableWithOption (InlayHints.kind hint) c) eqn:Hav.
    + rewrite decide_True by done. simpl.
      unfold mbind at 1. simpl.
      rewrite toLspHint_converted by done.
      unfold mbind, InlayHints.Raised_bind. rewrite IH.
      by rewrite <- app_assoc.
    + rewrite decide_False by done. simpl. apply IH.
Qed.

(** X12. With an option whose limit is at least three, the conversion of a
    list of hints returns the hints whose kind the option enables, in their
    order, each converted on its own.  It never returns more hints than it
    was given and none of the invalid kind; every returned hint has one
    label part, whose text is within the limit, with the blank tooltip and
    the uri of the document. *)
Theorem X12_toLspType_with_option (max_size : N) (result : list InlayHints.InlayHint)
    (docuri : string) (c : InlayHints.config.InlayHintOption) (content : string)
    (SC : InlayHints.SourceConverter) :
  (3 ≤ InlayHints.config.maxLength c)%N →
  (max_size < 2 ^ 64)%N →
  Forall (λ hint,
            (N.of_nat (String.length (InlayHints.value (InlayHints.lable hint)))
             ≤ max_size)%N) result →
  ∃ out,
    InlayHints.toLspType max_size result docuri (Some c) content SC
    = InlayHints.Value out ∧
    out = converted max_size (InlayHints.config.maxLength c) docuri content SC
            <$> filter (λ hint,
                          InlayHints.isAvailableWithOption (InlayHints.kind hint) c
                          = true) result ∧
    (length out ≤ length result)%nat ∧
    Forall (λ o,
              InlayHints.proto.kind o ≠ InlayHints.proto.LspInvalid ∧
              ∃ part,
                InlayHints.proto.lable o = [part] ∧
                (N.of_nat (String.length (InlayHints.proto.value part))
                 ≤ InlayHints.config.maxLength c)%N ∧
                InlayHints.proto.tooltip part = InlayHints.blank ∧
                InlayHints.proto.uri (InlayHints.proto.location part) = docuri) out.
Proof.
  intros H3 Hmax Hsizes. eexists. split; [|split; [reflexivity|split]].
  - unfold InlayHints.toLspType. by rewrite toLspLoop_with_option.
  - rewrite length_fmap. apply length_filter.
  - apply Forall_fmap, Forall_forall. intros hint Hin.
    apply list_elem_of_filter in Hin as [_ Hin].
    rewrite Forall_forall in Hsizes. specialize (Hsizes hint Hin).
    destruct (shrinkHintText_bounded max_size
                (InlayHints.value (InlayHints.lable hint))
                (InlayHints.config.maxLength c) H3 Hsizes Hmax)
      as (shrunk & Hrun & Hlen & _).
    simpl. split.
    + unfold InlayHints.toLspKind. by destruct (InlayHints.isLspTypeKind _).
    + eexists. split; [reflexivity|]. simpl. unfold shrunkTo. rewrite Hrun.
      by repeat split.
Qed.

Lemma X12_toLspType_with_option_witness :
  InlayHints.toLspType InlaySample.max_size
    [InlaySample.typeHint; InlaySample.blockHint; InlaySample.paramHint]
    "file:///main.cpp" (Some InlayHints.config.default) InlaySample.source
    InlaySample.SC
  = InlayHints.Value
      (converted InlaySample.max_size 30 "file:///main.cpp" InlaySample.source
         InlaySample.SC <$> [InlaySample.typeHint; InlaySample.paramHint]).
Proof.
  destruct (X12_toLspType_with_option InlaySample.max_size
              [InlaySample.typeHint; InlaySample.blockHint; InlaySample.paramHint]
              "file:///main.cpp" InlayHints.config.default InlaySample.source
              InlaySample.SC) as (out & Hrun & Hout & _).
  - by vm_compute.
  - by vm_compute.
  - repeat constructor; by vm_compute.
  - rewrite Hrun, Hout. reflexivity.
Defined.

(** X13. Without an option, the conversion returns the empty list for an
    empty list; for any other list it reads [maxLength] through the empty
    optional, which is undefined behaviour. *)
Theorem X13_toLspType_without_option (max_size : N)
    (result : list InlayHints.InlayHint) (docuri content : string)
    (SC : InlayHints.SourceConverter) :
  (result = [] →
   InlayHints.toLspType max_size result docuri None content SC
   = InlayHints.Value []) ∧
  (result ≠ [] →
   InlayHints.toLspType max_size result docuri None content SC
   = InlayHints.UndefinedBehaviour).
Proof.
  split.
  - by intros ->.
  - intros Hsome. by destruct result.
Qed.

Lemma X13_toLspType_without_option_witness :
  InlayHints.toLspType InlaySample.max_size [InlaySample.typeHint]
    "file:///main.cpp" None InlaySample.source InlaySample.SC
  = InlayHints.UndefinedBehaviour.
Proof.
  by apply (X13_toLspType_without_option InlaySample.max_size
              [InlaySample.typeHint] "file:///main.cpp" InlaySample.source
              InlaySample.SC).
Defined.

(** ** Simple setters *)

Lemma equals_insensitive_withoutUnderscores (a b : string) :
  InlayHints.equals_insensitive (InlayHints.withoutUnderscores a)
    (InlayHints.withoutUnderscores b) = true
  ↔ canonical a = canonical b.
Proof.
  unfold InlayHints.equals_insensitive, InlayHints.withoutUnderscores, canonical.
  rewrite !chars_of_chars. apply bool_decide_eq_true.
Qed.

Lemma isSimpleSetter_iff (md : InlayHints.CXXMethodDecl) :
  InlayHints.isSimpleSetter md = true ↔
  ∃ param set rest,
    InlayHints.parameters md = [param] ∧
    InlayHints.getName md = set +:+ rest ∧
    InlayHints.toLower <$> InlayHints.chars set = InlayHints.chars "set" ∧
    canonical rest = canonical param.
Proof.
  unfold InlayHints.isSimpleSetter, InlayHints.getNumParams.
  destruct md as [name params]. simpl. split.
  - destruct params as [|param [|? ?]]; simpl; try discriminate.
    destruct (InlayHints.starts_with_insensitive name "set") eqn:Hset;
      simpl; [|discriminate].
    intros Hsame. apply equals_insensitive_withoutUnderscores in Hsame.
    unfold InlayHints.starts_with_insensitive in Hset.
    apply andb_true_iff in Hset as [Hlen Hset].
    apply bool_decide_eq_true in Hlen.
    unfold InlayHints.equals_insensitive in Hset.
    apply bool_decide_eq_true in Hset. rewrite chars_of_chars in Hset.
    exists param, (InlayHints.of_chars (take 3 (InlayHints.chars name))),
      (InlayHints.drop_front 3 name).
    split; [done|]. split; [|split; [by rewrite chars_of_chars|done]].
    apply chars_inj. unfold InlayHints.drop_front.
    by rewrite chars_app, !chars_of_chars, take_drop.
  - intros (param & set & rest & -> & -> & Hset & Hsame). simpl.
    assert (length (InlayHints.chars set) = 3) as Hlen.
    { by rewrite <- (length_fmap InlayHints.toLower), Hset. }
    assert (InlayHints.starts_with_insensitive (set +:+ rest) "set" = true) as ->.
    { unfold InlayHints.starts_with_insensitive. apply andb_true_iff. split.
      - apply bool_decide_eq_true.
        rewrite length_app_string, <- (length_chars set), Hlen. simpl. lia.
      - unfold InlayHints.equals_insensitive. apply bool_decide_eq_true.
        rewrite chars_of_chars, chars_app.
        change (String.length "set") with 3.
        rewrite take_app_length' by done. by rewrite Hset. }
    simpl. apply equals_insensitive_withoutUnderscores.
    unfold InlayHints.drop_front. rewrite chars_app.
    rewrite drop_app_length' by done. unfold canonical in *.
    by rewrite chars_of_chars.
Qed.

(** X14. [isSimpleSetter] holds exactly of a method with one parameter
    whose name is [set], in any case, followed by a rest that is the name of
    the parameter once underscores are dropped and case is ignored.  A
    method named [set] followed by the very name of its only parameter is
    always one. *)
Theorem X14_isSimpleSetter_characterised (md : InlayHints.CXXMethodDecl) :
  (InlayHints.isSimpleSetter md = true ↔
   ∃ param set rest,
     InlayHints.parameters md = [param] ∧
     InlayHints.getName md = set +:+ rest ∧
     InlayHints.toLower <$> InlayHints.chars set = InlayHints.chars "set" ∧
     canonical rest = canonical param) ∧
  (∀ name, InlayHints.isSimpleSetter
             (InlayHints.mkCXXMethodDecl ("set" +:+ name) [name]) = true).
Proof.
  split; [apply isSimpleSetter_iff|].
  intros name. apply isSimpleSetter_iff.
  by exists name, "set", name.
Qed.

Lemma X14_isSimpleSetter_characterised_witness :
  InlayHints.isSimpleSetter (InlayHints.mkCXXMethodDecl "set_Foo_bar" ["fooBar"])
  = true.
Proof.
  apply (X14_isSimpleSetter_characterised
           (InlayHints.mkCXXMethodDecl "set_Foo_bar" ["fooBar"])).
  exists "fooBar", "set", "_Foo_bar". by vm_compute.
Defined.

(** ** Comments written by hand *)

Lemma drop_while_split (p : Ascii.ascii → bool) (l : list Ascii.ascii) :
  ∃ dropped,
    l = (dropped ++ InlayHints.drop_while p l)%list ∧
    Forall (λ c, p c = true) dropped.
Proof.
  induction l as [|c l (dropped & Hl & Hall)]; simpl.
  - by exists [].
  - destruct (p c) eqn:Hc.
    + exists (c :: dropped). split; [by rewrite <- app_comm_cons, <- Hl|].
      by constructor.
    + by exists [].
Qed.

Lemma drop_while_blanks (p : Ascii.ascii → bool) (blanks : list Ascii.ascii)
    (c : Ascii.ascii) (l : list Ascii.ascii) :
  Forall (λ c, p c = true) blanks → p c = false →
  InlayHints.drop_while p (blanks ++ c :: l) = c :: l.
Proof.
  intros Hall Hc. induction Hall as [|b blanks Hb Hall IH]; simpl.
  - by rewrite Hc.
  - by rewrite Hb.
Qed.

(** X15. [hasHandWriteComment] holds exactly when the location is in the
    main file and the text before its offset ends, white space apart, with
    the end of a block comment. *)
Theorem X15_hasHandWriteComment_characterised (self : InlayHints.InlayHintCollector)
    (fid : InlayHints.FileID) (offset : N) :
  InlayHints.hasHandWriteComment self (fid, offset) = true ↔
  fid = InlayHints.mainFileID self ∧
  ∃ before blanks,
    take (N.to_nat offset) (InlayHints.chars (InlayHints.code self))
    = (before ++ InlayHints.chars "*/" ++ blanks)%list ∧
    Forall (λ c, InlayHints.isTrimmed c = true) blanks.
Proof.
  unfold InlayHints.hasHandWriteComment, InlayHints.ends_with, InlayHints.rtrim,
    InlayHints.substr_to.
  rewrite !chars_of_chars.
  set (prefix := take (N.to_nat offset) (InlayHints.chars (InlayHints.code self))).
  destruct (decide (fid = InlayHints.mainFileID self)) as [Hmain|Hother].
  - rewrite bool_decide_eq_true_2 by done. simpl.
    rewrite bool_decide_eq_true. split.
    + intros [before Hsuffix]. split; [done|].
      destruct (drop_while_split InlayHints.isTrimmed (reverse prefix))
        as (dropped & Hprefix & Hall).
      exists before, (reverse dropped). split.
      * rewrite <- (reverse_involutive prefix), Hprefix, reverse_app, Hsuffix.
        by rewrite <- app_assoc.
      * by apply Forall_reverse.
    + intros (_ & before & blanks & Hprefix & Hall).
      exists before. rewrite Hprefix, reverse_app. simpl.
      rewrite !reverse_cons, <- !app_assoc. simpl.
      rewrite drop_while_blanks; [|by apply Forall_reverse|done].
      rewrite reverse_cons, reverse_cons, reverse_involutive.
      by rewrite <- app_assoc.
  - rewrite bool_decide_eq_false_2 by done. simpl. split; [done|].
    by intros [? _].
Qed.

Lemma X15_hasHandWriteComment_characterised_witness :
  InlayHints.hasHandWriteComment InlaySample.mainCollector (1%Z, 8%N) = true.
Proof.
  apply (X15_hasHandWriteComment_characterised InlaySample.mainCollector 1 8).
  split; [done|].
  exists (InlayHints.chars "f(/*x"), (InlayHints.chars " ").
  split; [by vm_compute|]. by repeat constructor.
Defined.

(** X19. A collection for the index filters the invalid ranges and no
    other.  A collection on the main file keeps a range, given that the range
    and the requested range are well formed, exactly when the range is
    valid, both its ends are in the main file and it shares an offset with
    the requested range. *)
Theorem X19_needFilter_intersection (self : InlayHints.InlayHintCollector)
    (r : InlayHints.SourceRange) :
  (InlayHints.onlyMain self = false →
   InlayHints.needFilter self r = InlayHints.isInvalid r) ∧
  (InlayHints.onlyMain self = true →
   (InlayHints.beginOffset r ≤ InlayHints.endOffset r)%N →
   (InlayHints.range_begin (InlayHints.limit self)
    ≤ InlayHints.range_end (InlayHints.limit self))%N →
   (InlayHints.needFilter self r = false ↔
    InlayHints.isInvalid r = false ∧
    InlayHints.beginInMainFile r = true ∧ InlayHints.endInMainFile r = true ∧
    ∃ x, (InlayHints.beginOffset r ≤ x ≤ InlayHints.endOffset r)%N ∧
         (InlayHints.range_begin (InlayHints.limit self) ≤ x
          ≤ InlayHints.range_end (InlayHints.limit self))%N)).
Proof.
  unfold InlayHints.needFilter. split.
  - intros ->. by destruct (InlayHints.isInvalid r).
  - intros -> Hrange Hlimit. simpl.
    destruct (InlayHints.isInvalid r); [split; [done|by intros [? _]]|].
    destruct (InlayHints.beginInMainFile r); simpl;
      [|split; [done|by intros (_ & ? & _)]].
    destruct (InlayHints.endInMainFile r); simpl;
      [|split; [done|by intros (_ & _ & ? & _)]].
    destruct (InlayHints.endOffset r <? _)%N eqn:Hleft; simpl.
    { apply N.ltb_lt in Hleft. split; [done|].
      intros (_ & _ & _ & x & Hx & Hx'). lia. }
    destruct (_ <? InlayHints.beginOffset r)%N eqn:Hright; simpl.
    { apply N.ltb_lt in Hright. split; [done|].
      intros (_ & _ & _ & x & Hx & Hx'). lia. }
    apply N.ltb_ge in Hleft, Hright. split; [|done]. intros _.
    repeat split.
    exists (N.max (InlayHints.beginOffset r)
              (InlayHints.range_begin (InlayHints.limit self))). lia.
Qed.

Lemma X19_needFilter_intersection_witness :
  InlayHints.needFilter InlaySample.mainCollector
    (InlayHints.mkSourceRange false true true 8 9) = false.
Proof.
  destruct (X19_needFilter_intersection InlaySample.mainCollector
              (InlayHints.mkSourceRange false true true 8 9)) as [_ Hmain].
  apply Hmain; [done|by vm_compute|by vm_compute|].
  repeat split. exists 8%N. by vm_compute.
Defined.

(** ** Hints for the elements of an initializer list *)

Lemma visitInits_pushAll (self : InlayHints.InlayHintCollector)
    (inits : list InlayHints.Expr) (count : N) (result : InlayHints.Storage) :
  InlayHints.visitInits self inits count result
  = pushAll
      (imap (λ i init,
               indexHint self (count + N.of_nat (S i)) (InlayHints.getBeginLoc init))
         (take (N.to_nat
                  (InlayHints.config.maxArrayElements (InlayHints.options self) - count))
            (eligibleInits self inits)))
      result.
Proof.
  revert count result. induction inits as [|init inits IH]; intros count result.
  - unfold eligibleInits. rewrite filter_nil, take_nil. done.
  - simpl. unfold eligibleInits. rewrite filter_cons.
    destruct (InlayHints.isDesignatedInit init
              || InlayHints.hasHandWriteComment self _) eqn:Hskip.
    + rewrite decide_False by done. apply IH.
    + rewrite decide_True by done.
      destruct (InlayHints.config.maxArrayElements (InlayHints.options self)
                <=? count)%N eqn:Hfull.
      * apply N.leb_le in Hfull.
        replace (N.to_nat (_ - count)) with 0%nat by lia. done.
      * apply N.leb_gt in Hfull.
        replace (N.to_nat
                   (InlayHints.config.maxArrayElements (InlayHints.options self)
                    - count))
          with (S (N.to_nat
                     (InlayHints.config.maxArrayElements (InlayHints.options self)
                      - (count + 1)))) by lia.
        rewrite firstn_cons, imap_cons. unfold pushAll at 1. simpl.
        rewrite IH. unfold pushAll. f_equal.
        apply imap_ext. intros i x _. unfold indexHint. simpl.
        do 6 f_equal. lia.
Qed.

Lemma pushAll_same_file (fid : InlayHints.FileID)
    (hints : list (InlayHints.FileID * InlayHints.InlayHint))
    (result : InlayHints.Storage) :
  Forall (λ hint, hint.1 = fid) hints →
  default [] (pushAll hints result !! fid)
  = (default [] (result !! fid) ++ hints.*2)%list ∧
  (∀ other, other ≠ fid → pushAll hints result !! other = result !! other).
Proof.
  intros Hall. revert result.
  induction Hall as [|[f hint] hints Hf Hall IH]; intros result.
  - simpl. by rewrite app_nil_r.
  - simpl in Hf. subst f. unfold pushAll. simpl.
    destruct (IH (InlayHints.push_back fid hint result)) as [Hsame Hother].
    unfold pushAll in Hsame, Hother. split.
    + rewrite Hsame. unfold InlayHints.push_back. rewrite lookup_insert_eq. simpl.
      by rewrite <- app_assoc.
    + intros other Hne. rewrite Hother by done.
      unfold InlayHints.push_back. by rewrite lookup_insert_ne.
Qed.

(** X16. [VisitInitListExpr] pushes one index hint for each of the first
    [maxArrayElements] initializers that are neither designated nor preceded
    by a comment, numbered from one in their order; with [maxArrayElements]
    zero it pushes none.  In a collection on the main file the hints are all
    appended to the hints of the main file, and no other file changes. *)
Theorem X16_VisitInitListExpr_numbers (self : InlayHints.InlayHintCollector)
    (inits : list InlayHints.Expr) (result : InlayHints.Storage) :
  InlayHints.VisitInitListExpr self inits result
  = pushAll (arrayIndexHints self inits) result ∧
  length (arrayIndexHints self inits)
  = Nat.min (N.to_nat (InlayHints.config.maxArrayElements (InlayHints.options self)))
      (length (eligibleInits self inits)) ∧
  (InlayHints.config.maxArrayElements (InlayHints.options self) = 0%N →
   InlayHints.VisitInitListExpr self inits result = result) ∧
  (InlayHints.onlyMain self = true →
   default [] (InlayHints.VisitInitListExpr self inits result
                 !! InlayHints.mainFileID self)
   = (default [] (result !! InlayHints.mainFileID self)
        ++ (arrayIndexHints self inits).*2)%list ∧
   ∀ other, other ≠ InlayHints.mainFileID self →
     InlayHints.VisitInitListExpr self inits result !! other = result !! other).
Proof.
  assert (InlayHints.VisitInitListExpr self inits result
          = pushAll (arrayIndexHints self inits) result) as Hrun.
  { unfold InlayHints.VisitInitListExpr. rewrite visitInits_pushAll.
    unfold arrayIndexHints. rewrite N.sub_0_r. f_equal. }
  split; [exact Hrun|]. split; [|split].
  - unfold arrayIndexHints. by rewrite length_imap, length_take.
  - intros Hzero. rewrite Hrun. unfold arrayIndexHints. by rewrite Hzero.
  - intros Hmain. rewrite Hrun. apply pushAll_same_file.
    unfold arrayIndexHints. apply Forall_forall. intros hint Hin.
    apply list_elem_of_lookup in Hin as [i Hi].
    rewrite list_lookup_imap in Hi.
    destruct (take _ _ !! i); simplify_eq/=. unfold indexHint. simpl.
    by rewrite Hmain.
Qed.

Lemma X16_VisitInitListExpr_numbers_witness :
  (λ hint, InlayHints.value (InlayHints.lable hint))
  <$> default []
        (InlayHints.VisitInitListExpr InlaySample.mainCollector
           [InlaySample.argY; InlaySample.argOne; InlaySample.argY;
            InlaySample.argY; InlaySample.argY] ∅ !! 1%Z)
  = ["[1]="; "[2]="; "[3]="].
Proof.
  destruct (X16_VisitInitListExpr_numbers InlaySample.mainCollector
              [InlaySample.argY; InlaySample.argOne; InlaySample.argY;
               InlaySample.argY; InlaySample.argY] ∅) as (_ & _ & _ & Hmain).
  destruct (Hmain eq_refl) as [Hstate _].
  change (InlayHints.mainFileID InlaySample.mainCollector) with 1%Z in Hstate.
  rewrite Hstate. by vm_compute.
Defined.

(** ** Hints for the arguments of a call *)

Lemma argumentsReached_length params args :
  (length (argumentsReached params args) ≤ Nat.min (length params) (length args))%nat.
Proof.
  revert args. induction params as [|param params IH]; intros [|arg args]; simpl;
    try lia.
  destruct (_ || _); simpl; [lia|]. specialize (IH args). lia.
Qed.

Lemma collectArgumentHint_pushAll (max_size : N)
    (self : InlayHints.InlayHintCollector) (shrink : string → string)
    (params : list InlayHints.ParmVarDecl) (args : list InlayHints.Expr)
    (kind : InlayHints.InlayHintKind) (result : InlayHints.Storage) :
  (∀ pair, pair ∈ argumentsHinted self params args →
     InlayHints.tryShrinkHintText max_size self (parameterText pair.1)
     = InlayHints.Value (shrink (parameterText pair.1))) →
  InlayHints.collectArgumentHint max_size self params args kind result
  = InlayHints.Value
      (pushAll (argumentHint self shrink kind <$> argumentsHinted self params args)
         result) ∧
  (length (argumentsHinted self params args)
   ≤ Nat.min (length params) (length args))%nat ∧
  (∀ pair, pair ∈ argumentsHinted self params args →
     InlayHints.parm_name pair.1 ≠ "" ∧
     InlayHints.equals_insensitive (InlayHints.parm_name pair.1)
       (InlayHints.identifier pair.2) = false ∧
     InlayHints.hasHandWriteComment self
       (InlayHints.decomposed (InlayHints.getBeginLoc pair.2)) = false ∧
     InlayHints.isPackExpansion pair.2 = false ∧
     InlayHints.isDefaultArg pair.2 = false).
Proof.
  intros Hshrink. split; [|split].
  - revert args result Hshrink.
    induction params as [|param params IH]; intros [|arg args] result Hshrink;
      try done.
    unfold argumentsHinted in *.
    cbn [InlayHints.collectArgumentHint argumentsReached] in *.
    destruct (InlayHints.isPackExpansion arg || InlayHints.isDefaultArg arg);
      [done|].
    rewrite filter_cons in *. cbn [fst snd] in *.
    destruct (InlayHints.needHintArgument self param arg) eqn:Hneed;
      cbn [negb].
    + rewrite decide_True in * by done.
      pose proof (Hshrink (param, arg) (list_elem_of_here _ _)) as Hrun.
      unfold parameterText in Hrun. cbn [fst snd] in Hrun. rewrite Hrun.
      unfold mbind, InlayHints.Raised_bind.
      rewrite IH; [done|].
      intros pair Hin. apply Hshrink. by apply list_elem_of_further.
    + rewrite decide_False in * by done. by apply IH.
  - unfold argumentsHinted.
    etransitivity; [apply length_filter|apply argumentsReached_length].
  - intros [param arg] Hin. unfold argumentsHinted in Hin.
    apply list_elem_of_filter in Hin as [Hneed Hin]. simpl in *.
    assert (InlayHints.isPackExpansion arg = false ∧
            InlayHints.isDefaultArg arg = false) as [Hpack Hdefault].
    { clear Hneed Hshrink. revert args Hin.
      induction params as [|p params IH]; intros [|a args] Hin; simpl in Hin;
        try by apply elem_of_nil in Hin.
      destruct (InlayHints.isPackExpansion a || InlayHints.isDefaultArg a) eqn:Htail;
        [by apply elem_of_nil in Hin|].
      apply elem_of_cons in Hin as [Heq|Hin]; [|by eapply IH].
      simplify_eq. by apply orb_false_iff in Htail. }
    unfold InlayHints.needHintArgument in Hneed.
    destruct (bool_decide (InlayHints.parm_name param = "")) eqn:Hname;
      [done|].
    apply bool_decide_eq_false in Hname.
    destruct (InlayHints.equals_insensitive _ _); [done|].
    destruct (InlayHints.hasHandWriteComment _ _); [done|].
    done.
Qed.

(** ** Hints at the end of a block *)






Lemma tryShrinkHintText_returns (max_size : N) (self : InlayHints.InlayHintCollector)
    (text : string) :
  (InlayHints.onlyMain self = true →
   (3 ≤ InlayHints.config.maxLength (InlayHints.options self))%N) →
  (N.of_nat (String.length text) ≤ max_size)%N →
  (max_size < 2 ^ 64)%N →
  InlayHints.tryShrinkHintText max_size self text
  = InlayHints.Value (tryShrunk max_size self text) ∧
  (InlayHints.onlyMain self = true →
   (N.of_nat (String.length (tryShrunk max_size self text))
    ≤ InlayHints.config.maxLength (InlayHints.options self))%N) ∧
  (InlayHints.onlyMain self = false → tryShrunk max_size self text = text).
Proof.
  intros H3 Hsize Hmax. unfold tryShrunk, InlayHints.tryShrinkHintText.
  destruct (InlayHints.onlyMain self); [|done].
  destruct (shrinkHintText_bounded max_size text
              (InlayHints.config.maxLength (InlayHints.options self))
              (H3 eq_refl) Hsize Hmax) as (shrunk & -> & Hlen & _).
  done.
Qed.

Lemma argumentsReached_params params args pair :
  pair ∈ argumentsReached params args → pair.1 ∈ params.
Proof.
  revert args. induction params as [|param params IH]; intros [|arg args] Hin;
    simpl in Hin; try by apply elem_of_nil in Hin.
  destruct (_ || _); [by apply elem_of_nil in Hin|].
  apply elem_of_cons in Hin as [->|Hin]; [left|right; by eapply IH].
Qed.

(** X17. When texts can be shrunk (in a collection on the main file the
    limit is at least three), [collectArgumentHint] returns, having pushed in
    order one hint for each pair of parameter and argument that comes before
    the first pack expansion or default argument and needs a hint.  These
    are at most as many as there are parameters and as there are arguments;
    each has a named parameter that differs, case ignored, from the
    identifier the argument spells, and no comment before the argument.  The
    text of a hint is within the limit in a collection on the main file and
    is the full text in a collection for the index. *)
Theorem X17_collectArgumentHint_hints (max_size : N)
    (self : InlayHints.InlayHintCollector)
    (params : list InlayHints.ParmVarDecl) (args : list InlayHints.Expr)
    (kind : InlayHints.InlayHintKind) (result : InlayHints.Storage) :
  (InlayHints.onlyMain self = true →
   (3 ≤ InlayHints.config.maxLength (InlayHints.options self))%N) →
  (∀ param, param ∈ params →
     (N.of_nat (String.length (parameterText param)) ≤ max_size)%N) →
  (max_size < 2 ^ 64)%N →
  InlayHints.collectArgumentHint max_size self params args kind result
  = InlayHints.Value
      (pushAll (argumentHint self (tryShrunk max_size self) kind
                  <$> argumentsHinted self params args)
         result) ∧
  (length (argumentsHinted self params args)
   ≤ Nat.min (length params) (length args))%nat ∧
  (∀ pair, pair ∈ argumentsHinted self params args →
     InlayHints.parm_name pair.1 ≠ "" ∧
     InlayHints.equals_insensitive (InlayHints.parm_name pair.1)
       (InlayHints.identifier pair.2) = false ∧
     InlayHints.hasHandWriteComment self
       (InlayHints.decomposed (InlayHints.getBeginLoc pair.2)) = false ∧
     InlayHints.isPackExpansion pair.2 = false ∧
     InlayHints.isDefaultArg pair.2 = false ∧
     (InlayHints.onlyMain self = true →
      (N.of_nat (String.length (tryShrunk max_size self (parameterText pair.1)))
       ≤ InlayHints.config.maxLength (InlayHints.options self))%N) ∧
     (InlayHints.onlyMain self = false →
      tryShrunk max_size self (parameterText pair.1) = parameterText pair.1)).
Proof.
  intros H3 Hsizes Hmax.
  assert (∀ pair, pair ∈ argumentsHinted self params args → pair.1 ∈ params)
    as Hparams.
  { intros pair Hin. apply list_elem_of_filter in Hin as [_ Hin].
    by eapply argumentsReached_params. }
  destruct (collectArgumentHint_pushAll max_size self (tryShrunk max_size self)
              params args kind result) as (Hrun & Hlen & Hpairs).
  { intros pair Hin.
    by apply tryShrinkHintText_returns; [|apply Hsizes, Hparams|]. }
  split; [done|]. split; [done|].
  intros pair Hin. destruct (Hpairs pair Hin) as (? & ? & ? & ? & ?).
  destruct (tryShrinkHintText_returns max_size self (parameterText pair.1))
    as (_ & ? & ?); [done|by apply Hsizes, Hparams|done|].
  done.
Qed.

Lemma X17_collectArgumentHint_hints_witness :
  InlayHints.collectArgumentHint InlaySample.max_size InlaySample.mainCollector
    [InlaySample.parmX; InlaySample.parmWidth]
    [InlaySample.argOne; InlaySample.argY] InlayHints.Param ∅
  = InlayHints.Value (InlayHints.push_back 1 InlaySample.paramHint ∅).
Proof.
  destruct (X17_collectArgumentHint_hints InlaySample.max_size
              InlaySample.mainCollector [InlaySample.parmX; InlaySample.parmWidth]
              [InlaySample.argOne; InlaySample.argY] InlayHints.Param ∅)
    as (Hrun & _).
  - intros _. by vm_compute.
  - intros param [->|[->|[]%elem_of_nil]%elem_of_cons]%elem_of_cons;
      by vm_compute.
  - by vm_compute.
  - rewrite Hrun. f_equal.
Defined.





